(** * gecko: the test sender and the genesis tables

    A shallow embedding of two source files of the gecko node,

      - [snow/networking/sender/test_external_sender.go]
        (module [Sender]), and
      - [genesis/genesis.go] (module [GenesisPkg]),

    together with a model of the vote tally that the specification
    describes (module [Tally]). *)

From Stdlib Require Import ZArith NArith String Ascii List Lia Bool.
From stdpp Require Import gmap strings list fin_maps.

Local Open Scope string_scope.

(** Pairwise different keys, from the absence of duplicates. *)
Ltac split_NoDup H :=
  repeat match type of H with
         | NoDup (_ :: _) =>
             let Hx := fresh "Hx" in
             apply NoDup_cons in H as [Hx H];
             rewrite ?not_elem_of_cons in Hx
         end.

(** Go's [uint32]: a natural number below [2^32]. *)
Definition uint32 : Type := N.
Definition MaxUint32 : Z := 4294967295.

(* ===================================================================== *)
(** * The test sender  *)
(* ===================================================================== *)

Module Sender.

(** The Go types that occur in a signature of the sender. *)
Inductive GoType : Type :=
  | TShortSet   (* ids.ShortSet : a set of peer identifiers *)
  | TShortID    (* ids.ShortID  : one peer identifier *)
  | TID         (* ids.ID       : a chain or container identifier *)
  | TUint32     (* uint32 *)
  | TSet        (* ids.Set      : a set of container identifiers *)
  | TBytes.     (* []byte *)

(** The nine methods of [ExternalSenderTest] besides [Default]. *)
Inductive Op : Type :=
  | OpGetAcceptedFrontier
  | OpAcceptedFrontier
  | OpGetAccepted
  | OpAccepted
  | OpGet
  | OpPut
  | OpPushQuery
  | OpPullQuery
  | OpChits.

Definition all_ops : list Op :=
  [ OpGetAcceptedFrontier; OpAcceptedFrontier; OpGetAccepted; OpAccepted;
    OpGet; OpPut; OpPushQuery; OpPullQuery; OpChits ].

(** The method name, as the source spells it. *)
Definition name (o : Op) : string :=
  match o with
  | OpGetAcceptedFrontier => "GetAcceptedFrontier"
  | OpAcceptedFrontier => "AcceptedFrontier"
  | OpGetAccepted => "GetAccepted"
  | OpAccepted => "Accepted"
  | OpGet => "Get"
  | OpPut => "Put"
  | OpPushQuery => "PushQuery"
  | OpPullQuery => "PullQuery"
  | OpChits => "Chits"
  end.

(** The parameter list of each method, in source order. *)
Definition params (o : Op) : list GoType :=
  match o with
  | OpGetAcceptedFrontier => [TShortSet; TID; TUint32]
  | OpAcceptedFrontier    => [TShortID; TID; TUint32; TSet]
  | OpGetAccepted         => [TShortSet; TID; TUint32; TSet]
  | OpAccepted            => [TShortID; TID; TUint32; TSet]
  | OpGet                 => [TShortID; TID; TUint32; TID]
  | OpPut                 => [TShortID; TID; TUint32; TID; TBytes]
  | OpPushQuery           => [TShortSet; TID; TUint32; TID; TBytes]
  | OpPullQuery           => [TShortSet; TID; TUint32; TID]
  | OpChits               => [TShortID; TID; TUint32; TSet]
  end.

(** The spec's two families of operations. *)
Definition request_style : list Op :=
  [OpGetAcceptedFrontier; OpGetAccepted; OpGet; OpPushQuery; OpPullQuery].
Definition response_style : list Op :=
  [OpAcceptedFrontier; OpAccepted; OpPut; OpChits].

Section WithTypes.

(** The identifier types of package [ids], the two testing handles of
    package [testing], and what a handler does when it runs: none of them
    is inspected by the sender, which only passes them on. *)
Context {ShortSet ShortID ID IDSet : Type}.
Context {TestingT TestingB : Type}.
Context {Act : Type}.

Definition denote (t : GoType) : Type :=
  match t with
  | TShortSet => ShortSet
  | TShortID => ShortID
  | TID => ID
  | TUint32 => uint32
  | TSet => IDSet
  | TBytes => list Byte.byte
  end.

(** [func ts R] is the Go function type [func(ts...) R]. *)
Fixpoint func (ts : list GoType) (R : Type) : Type :=
  match ts with
  | [] => R
  | t :: ts' => denote t -> func ts' R
  end.

(** An argument tuple for a parameter list. *)
Fixpoint args (ts : list GoType) : Type :=
  match ts with
  | [] => unit
  | t :: ts' => (denote t * args ts')%type
  end.

Fixpoint call {R : Type} (ts : list GoType) : func ts R -> args ts -> R :=
  match ts with
  | [] => fun f _ => f
  | t :: ts' => fun f a => call ts' (f (fst a)) (snd a)
  end.

(** What one call of a method does, in order. [Run a]: the installed
    handler was called, and [a] is what it did on the arguments it was
    given; [TFatalf t m], [BFatalf b m]: [Fatalf] was called on the
    testing handle with message [m]. *)
Inductive Event : Type :=
  | Run (a : Act)
  | TFatalf (t : TestingT) (msg : string)
  | BFatalf (b : TestingB) (msg : string).

Definition is_fatal (e : Event) : bool :=
  match e with
  | Run _ => false
  | TFatalf _ _ | BFatalf _ _ => true
  end.

(** The struct. A nil pointer or nil func is [None]. *)
Record ExternalSenderTest : Type := {
  T : option TestingT;
  B : option TestingB;

  CantGetAcceptedFrontier : bool;
  CantAcceptedFrontier : bool;
  CantGetAccepted : bool;
  CantAccepted : bool;
  CantGet : bool;
  CantPut : bool;
  CantPullQuery : bool;
  CantPushQuery : bool;
  CantChits : bool;

  GetAcceptedFrontierF : option (ShortSet -> ID -> uint32 -> Act);
  AcceptedFrontierF : option (ShortID -> ID -> uint32 -> IDSet -> Act);
  GetAcceptedF : option (ShortSet -> ID -> uint32 -> IDSet -> Act);
  AcceptedF : option (ShortID -> ID -> uint32 -> IDSet -> Act);
  GetF : option (ShortID -> ID -> uint32 -> ID -> Act);
  PutF : option (ShortID -> ID -> uint32 -> ID -> list Byte.byte -> Act);
  PushQueryF : option (ShortSet -> ID -> uint32 -> ID -> list Byte.byte -> Act);
  PullQueryF : option (ShortSet -> ID -> uint32 -> ID -> Act);
  ChitsF : option (ShortID -> ID -> uint32 -> IDSet -> Act)
}.

(** [Default] sets the default callable value to [cant]. *)
Definition Default (s : ExternalSenderTest) (cant : bool) : ExternalSenderTest :=
  {| T := T s;
     B := B s;
     CantGetAcceptedFrontier := cant;
     CantAcceptedFrontier := cant;
     CantGetAccepted := cant;
     CantAccepted := cant;
     CantGet := cant;
     CantPut := cant;
     CantPullQuery := cant;
     CantPushQuery := cant;
     CantChits := cant;
     GetAcceptedFrontierF := GetAcceptedFrontierF s;
     AcceptedFrontierF := AcceptedFrontierF s;
     GetAcceptedF := GetAcceptedF s;
     AcceptedF := AcceptedF s;
     GetF := GetF s;
     PutF := PutF s;
     PushQueryF := PushQueryF s;
     PullQueryF := PullQueryF s;
     ChitsF := ChitsF s |}.

(** The nine methods. Each is the source's chain
    [if s.XF != nil {...} else if s.CantX && s.T != nil {...}
     else if s.CantX && s.B != nil {...}]. *)

Definition GetAcceptedFrontier (s : ExternalSenderTest)
    (validatorIDs : ShortSet) (chainID : ID) (requestID : uint32) : list Event :=
  match GetAcceptedFrontierF s with
  | Some f => [Run (f validatorIDs chainID requestID)]
  | None =>
      match CantGetAcceptedFrontier s, T s with
      | true, Some t => [TFatalf t "Unexpectedly called GetAcceptedFrontier"]
      | _, _ =>
          match CantGetAcceptedFrontier s, B s with
          | true, Some b => [BFatalf b "Unexpectedly called GetAcceptedFrontier"]
          | _, _ => []
          end
      end
  end.

Definition AcceptedFrontier (s : ExternalSenderTest)
    (validatorID : ShortID) (chainID : ID) (requestID : uint32)
    (containerIDs : IDSet) : list Event :=
  match AcceptedFrontierF s with
  | Some f => [Run (f validatorID chainID requestID containerIDs)]
  | None =>
      match CantAcceptedFrontier s, T s with
      | true, Some t => [TFatalf t "Unexpectedly called AcceptedFrontier"]
      | _, _ =>
          match CantAcceptedFrontier s, B s with
          | true, Some b => [BFatalf b "Unexpectedly called AcceptedFrontier"]
          | _, _ => []
          end
      end
  end.

Definition GetAccepted (s : ExternalSenderTest)
    (validatorIDs : ShortSet) (chainID : ID) (requestID : uint32)
    (containerIDs : IDSet) : list Event :=
  match GetAcceptedF s with
  | Some f => [Run (f validatorIDs chainID requestID containerIDs)]
  | None =>
      match CantGetAccepted s, T s with
      | true, Some t => [TFatalf t "Unexpectedly called GetAccepted"]
      | _, _ =>
          match CantGetAccepted s, B s with
          | true, Some b => [BFatalf b "Unexpectedly called GetAccepted"]
          | _, _ => []
          end
      end
  end.

Definition Accepted (s : ExternalSenderTest)
    (validatorID : ShortID) (chainID : ID) (requestID : uint32)
    (containerIDs : IDSet) : list Event :=
  match AcceptedF s with
  | Some f => [Run (f validatorID chainID requestID containerIDs)]
  | None =>
      match CantAccepted s, T s with
      | true, Some t => [TFatalf t "Unexpectedly called Accepted"]
      | _, _ =>
          match CantAccepted s, B s with
          | true, Some b => [BFatalf b "Unexpectedly called Accepted"]
          | _, _ => []
          end
      end
  end.

Definition Get (s : ExternalSenderTest)
    (vdr : ShortID) (chainID : ID) (requestID : uint32) (vtxID : ID) : list Event :=
  match GetF s with
  | Some f => [Run (f vdr chainID requestID vtxID)]
  | None =>
      match CantGet s, T s with
      | true, Some t => [TFatalf t "Unexpectedly called Get"]
      | _, _ =>
          match CantGet s, B s with
          | true, Some b => [BFatalf b "Unexpectedly called Get"]
          | _, _ => []
          end
      end
  end.

Definition Put (s : ExternalSenderTest)
    (vdr : ShortID) (chainID : ID) (requestID : uint32) (vtxID : ID)
    (vtx : list Byte.byte) : list Event :=
  match PutF s with
  | Some f => [Run (f vdr chainID requestID vtxID vtx)]
  | None =>
      match CantPut s, T s with
      | true, Some t => [TFatalf t "Unexpectedly called Put"]
      | _, _ =>
          match CantPut s, B s with
          | true, Some b => [BFatalf b "Unexpectedly called Put"]
          | _, _ => []
          end
      end
  end.

Definition PushQuery (s : ExternalSenderTest)
    (vdrs : ShortSet) (chainID : ID) (requestID : uint32) (vtxID : ID)
    (vtx : list Byte.byte) : list Event :=
  match PushQueryF s with
  | Some f => [Run (f vdrs chainID requestID vtxID vtx)]
  | None =>
      match CantPushQuery s, T s with
      | true, Some t => [TFatalf t "Unexpectedly called PushQuery"]
      | _, _ =>
          match CantPushQuery s, B s with
          | true, Some b => [BFatalf b "Unexpectedly called PushQuery"]
          | _, _ => []
          end
      end
  end.

Definition PullQuery (s : ExternalSenderTest)
    (vdrs : ShortSet) (chainID : ID) (requestID : uint32) (vtxID : ID) : list Event :=
  match PullQueryF s with
  | Some f => [Run (f vdrs chainID requestID vtxID)]
  | None =>
      match CantPullQuery s, T s with
      | true, Some t => [TFatalf t "Unexpectedly called PullQuery"]
      | _, _ =>
          match CantPullQuery s, B s with
          | true, Some b => [BFatalf b "Unexpectedly called PullQuery"]
          | _, _ => []
          end
      end
  end.

Definition Chits (s : ExternalSenderTest)
    (vdr : ShortID) (chainID : ID) (requestID : uint32) (votes : IDSet) : list Event :=
  match ChitsF s with
  | Some f => [Run (f vdr chainID requestID votes)]
  | None =>
      match CantChits s, T s with
      | true, Some t => [TFatalf t "Unexpectedly called Chits"]
      | _, _ =>
          match CantChits s, B s with
          | true, Some b => [BFatalf b "Unexpectedly called Chits"]
          | _, _ => []
          end
      end
  end.

(** The methods, the handler fields and the flags, indexed by operation.
    The definitions type-check only because every field and every method
    has the parameter list that [params] records. *)

Definition method (s : ExternalSenderTest) (o : Op)
  : func (params o) (list Event) :=
  match o with
  | OpGetAcceptedFrontier => GetAcceptedFrontier s
  | OpAcceptedFrontier => AcceptedFrontier s
  | OpGetAccepted => GetAccepted s
  | OpAccepted => Accepted s
  | OpGet => Get s
  | OpPut => Put s
  | OpPushQuery => PushQuery s
  | OpPullQuery => PullQuery s
  | OpChits => Chits s
  end.

Definition handlerF (s : ExternalSenderTest) (o : Op)
  : option (func (params o) Act) :=
  match o with
  | OpGetAcceptedFrontier => GetAcceptedFrontierF s
  | OpAcceptedFrontier => AcceptedFrontierF s
  | OpGetAccepted => GetAcceptedF s
  | OpAccepted => AcceptedF s
  | OpGet => GetF s
  | OpPut => PutF s
  | OpPushQuery => PushQueryF s
  | OpPullQuery => PullQueryF s
  | OpChits => ChitsF s
  end.

Definition cant (s : ExternalSenderTest) (o : Op) : bool :=
  match o with
  | OpGetAcceptedFrontier => CantGetAcceptedFrontier s
  | OpAcceptedFrontier => CantAcceptedFrontier s
  | OpGetAccepted => CantGetAccepted s
  | OpAccepted => CantAccepted s
  | OpGet => CantGet s
  | OpPut => CantPut s
  | OpPushQuery => CantPushQuery s
  | OpPullQuery => CantPullQuery s
  | OpChits => CantChits s
  end.

(** Calling operation [o] of [s] with the arguments [a]. *)
Definition invoke (s : ExternalSenderTest) (o : Op) (a : args (params o))
  : list Event :=
  call (params o) (method s o) a.

(** The message of a [Fatalf], if the event is one. *)
Definition fatal_msg (e : Event) : option string :=
  match e with
  | Run _ => None
  | TFatalf _ msg | BFatalf _ msg => Some msg
  end.

End WithTypes.

Arguments denote : clear implicits.
Arguments func : clear implicits.
Arguments args : clear implicits.
Arguments Event : clear implicits.
Arguments ExternalSenderTest : clear implicits.

(** A concrete sender for the examples: peers, chains and containers are
    numbers, a handler reports the name of its operation and the request
    identifier it was given, and the testing handles are named by
    strings. *)
Definition Sender0 : Type :=
  ExternalSenderTest (list N) N N (list N) string string (string * uint32).

(** No handler, every flag set, no testing handle. *)
Definition bare_sender : Sender0 :=
  {| T := None; B := None;
     CantGetAcceptedFrontier := true; CantAcceptedFrontier := true;
     CantGetAccepted := true; CantAccepted := true;
     CantGet := true; CantPut := true;
     CantPullQuery := true; CantPushQuery := true; CantChits := true;
     GetAcceptedFrontierF := None; AcceptedFrontierF := None;
     GetAcceptedF := None; AcceptedF := None;
     GetF := None; PutF := None;
     PushQueryF := None; PullQueryF := None; ChitsF := None |}.

(** The same with a [*testing.T] attached. *)
Definition tested_sender : Sender0 :=
  {| T := Some "t"; B := None;
     CantGetAcceptedFrontier := true; CantAcceptedFrontier := true;
     CantGetAccepted := true; CantAccepted := true;
     CantGet := true; CantPut := true;
     CantPullQuery := true; CantPushQuery := true; CantChits := true;
     GetAcceptedFrontierF := None; AcceptedFrontierF := None;
     GetAcceptedF := None; AcceptedF := None;
     GetF := None; PutF := None;
     PushQueryF := None; PullQueryF := None; ChitsF := None |}.

(** [tested_sender] with the flag of [Get] cleared. *)
Definition tested_sender_get_allowed : Sender0 :=
  {| T := Some "t"; B := None;
     CantGetAcceptedFrontier := true; CantAcceptedFrontier := true;
     CantGetAccepted := true; CantAccepted := true;
     CantGet := false; CantPut := true;
     CantPullQuery := true; CantPushQuery := true; CantChits := true;
     GetAcceptedFrontierF := None; AcceptedFrontierF := None;
     GetAcceptedF := None; AcceptedF := None;
     GetF := None; PutF := None;
     PushQueryF := None; PullQueryF := None; ChitsF := None |}.

(** A sender with a [Put] handler, every flag set and both handles. *)
Definition put_sender : Sender0 :=
  {| T := Some "t"; B := Some "b";
     CantGetAcceptedFrontier := true; CantAcceptedFrontier := true;
     CantGetAccepted := true; CantAccepted := true;
     CantGet := true; CantPut := true;
     CantPullQuery := true; CantPushQuery := true; CantChits := true;
     GetAcceptedFrontierF := None; AcceptedFrontierF := None;
     GetAcceptedF := None; AcceptedF := None;
     GetF := None;
     PutF := Some (fun _ _ requestID _ _ => ("put", requestID));
     PushQueryF := None; PullQueryF := None; ChitsF := None |}.

End Sender.

(* ===================================================================== *)
(** * Go's [strings] and [strconv], as far as [genesis.go] uses them *)
(* ===================================================================== *)

(** Strings are byte strings. The functions below follow the Go standard
    library on a platform whose [int] has 64 bits: [genesis.go] compares an
    [int] with [math.MaxUint32], which no 32-bit platform compiles. *)

Module GoLib.

Definition is_digit (c : ascii) : bool :=
  (48 <=? N_of_ascii c)%N && (N_of_ascii c <=? 57)%N.

Definition is_upper (c : ascii) : bool :=
  (65 <=? N_of_ascii c)%N && (N_of_ascii c <=? 90)%N.

Definition is_ascii (c : ascii) : bool := (N_of_ascii c <? 128)%N.

Fixpoint string_forall (p : ascii -> bool) (s : string) : bool :=
  match s with
  | EmptyString => true
  | String c s' => p c && string_forall p s'
  end.

(** [strings.ToLower] on ASCII text: the capitals [A] to [Z] become small
    letters and every other byte below 128 stays. On other text Go maps
    Unicode letters and replaces invalid UTF-8, which the model leaves
    out: it is used on ASCII text only, and a property of [NetworkID]
    that ranges over names asks for [is_ascii] on every byte. *)
Definition lower (c : ascii) : ascii :=
  if is_upper c then ascii_of_N (N_of_ascii c + 32) else c.

Fixpoint ToLower (s : string) : string :=
  match s with
  | EmptyString => EmptyString
  | String c s' => String (lower c) (ToLower s')
  end.

(** [s[n:]] for [n <= len(s)]; Go panics for a larger [n], a case that
    its one use below excludes ([MatchString_length]). *)
Fixpoint slice_from (n : nat) (s : string) : string :=
  match n, s with
  | O, _ => s
  | S n', String _ s' => slice_from n' s'
  | S _, EmptyString => EmptyString
  end.

(** The verb [%d] of [fmt.Sprintf] on an unsigned value: the loop
    [for u >= 10 { next := u / 10; buf[i] = '0' + u - next*10; u = next }]
    followed by the leading digit. [fuel] bounds the number of digits. *)
Definition digit_char (d : N) : ascii := ascii_of_N (48 + d).

Fixpoint fmt_decimal (fuel : nat) (u : N) (buf : string) : string :=
  match fuel with
  | O => buf
  | S fuel' =>
      if (u <? 10)%N then String (digit_char u) buf
      else fmt_decimal fuel' (u / 10) (String (digit_char (u mod 10)) buf)
  end.

(** Twenty digits are enough for every [uint64]. *)
Definition Sprintf_d (u : N) : string := fmt_decimal 20 u "".

(** The two errors of [strconv]. *)
Inductive NumError : Type := ErrSyntax | ErrRange.

Definition maxUint64 : N := 18446744073709551615.

(** The digit loop of [strconv.ParseUint] for base 10 and 64 bits:
    [cutoff = maxUint64/10 + 1] and [maxVal = 1<<64 - 1]. *)
Fixpoint parse_digits (s : string) (n : N) : N * option NumError :=
  match s with
  | EmptyString => (n, None)
  | String c s' =>
      if is_digit c then
        let d := (N_of_ascii c - 48)%N in
        if (maxUint64 / 10 + 1 <=? n)%N then (maxUint64, Some ErrRange)
        else
          let n10 := ((n * 10) mod 2 ^ 64)%N in
          let n1 := ((n10 + d) mod 2 ^ 64)%N in
          if (n1 <? n10)%N || (maxUint64 <? n1)%N
          then (maxUint64, Some ErrRange)
          else parse_digits s' n1
      else (0%N, Some ErrSyntax)
  end.

(** [strconv.ParseUint(s, 10, 0)]. *)
Definition ParseUint (s : string) : N * option NumError :=
  match s with
  | EmptyString => (0%N, Some ErrSyntax)
  | _ => parse_digits s 0
  end.

(** [strconv.ParseInt(s, 10, 0)]: an optional sign, then [ParseUint], then
    the range check against [cutoff = 1 << 63]. *)
Definition ParseInt (s : string) : Z * option NumError :=
  match s with
  | EmptyString => (0%Z, Some ErrSyntax)
  | String c s' =>
      let neg := Ascii.eqb c "-" in
      let digits := if Ascii.eqb c "+" || neg then s' else s in
      let cutoff := (2 ^ 63)%N in
      match ParseUint digits with
      | (_, Some ErrSyntax) => (0%Z, Some ErrSyntax)
      | (un, _) =>
          if negb neg && (cutoff <=? un)%N
          then (Z.of_N cutoff - 1, Some ErrRange)%Z
          else if neg && (cutoff <? un)%N
          then (- Z.of_N cutoff, Some ErrRange)%Z
          else (if neg then - Z.of_N un else Z.of_N un, None)%Z
      end
  end.

(** [strconv.Atoi]: its fast path for short strings computes what
    [ParseInt(s, 10, 0)] computes. *)
Definition Atoi (s : string) : Z * option NumError := ParseInt s.

End GoLib.

(* ===================================================================== *)
(** * Package [genesis] *)
(* ===================================================================== *)

Module GenesisPkg.

Import GoLib.

(** Hardcoded network IDs *)
Definition MainnetID : uint32 := 1%N.
Definition TestnetID : uint32 := 2%N.
Definition BorealisID : uint32 := 2%N.
Definition LocalID : uint32 := 12345%N.

Definition MainnetName : string := "mainnet".
Definition TestnetName : string := "testnet".
Definition BorealisName : string := "borealis".
Definition LocalName : string := "local".

(** [regexp.MustCompile(`network-[0-9]+`).MatchString]: the pattern is not
    anchored, so it asks for an occurrence of ["network-"] followed by a
    digit anywhere in the string. *)
Fixpoint validNetworkName_MatchString (s : string) : bool :=
  match s with
  | EmptyString => false
  | String _ s' =>
      (String.prefix "network-" s
       && match slice_from 8 s with
          | String d _ => is_digit d
          | EmptyString => false
          end)
      || validNetworkName_MatchString s'
  end.

(** The two tables, built entry by entry in the order of the literals. *)
Definition NetworkIDToNetworkName : gmap N string :=
  <[LocalID := LocalName]>
    (<[TestnetID := BorealisName]>
      (<[MainnetID := MainnetName]> ∅)).

Definition NetworkNameToNetworkID : gmap string N :=
  <[LocalName := LocalID]>
    (<[BorealisName := BorealisID]>
      (<[TestnetName := TestnetID]>
        (<[MainnetName := MainnetID]> ∅))).

(** [NetworkName] returns a human readable name for the network with ID
    [networkID]. *)
Definition NetworkName (networkID : uint32) : string :=
  match NetworkIDToNetworkName !! networkID with
  | Some name => name
  | None => "network-" +:+ Sprintf_d networkID
  end.

(** [NetworkID] returns the ID of the network with name [networkName]; the
    second component is the error, [None] for nil. *)
Definition NetworkID (networkName : string) : uint32 * option string :=
  let networkName := ToLower networkName in
  match NetworkNameToNetworkID !! networkName with
  | Some id => (id, None)
  | None =>
      let failed :=
        (0%N, Some ("Failed to parse " +:+ networkName +:+ " as a network name")) in
      let out_of_range :=
        (0%N, Some ("NetworkID " +:+ networkName +:+ " not in [0, 2^32)")) in
      match ParseUint networkName with
      | (id, None) =>
          if (Z.of_N id >? MaxUint32)%Z then out_of_range
          else ((id mod 2 ^ 32)%N, None)
      | (_, Some _) =>
          if validNetworkName_MatchString networkName then
            match Atoi (slice_from 8 networkName) with
            | (id, None) =>
                if (id >? MaxUint32)%Z then out_of_range
                else (Z.to_N (id mod 2 ^ 32), None)
            | (_, Some _) => failed
            end
          else failed
      end
  end.

(** ** The genesis state and the alias tables *)

(** What [genesis.go] imports from the packages [ids] and [platformvm] and
    from the six virtual machines: the identifier type with its methods
    [String], [Key] and [Equals], the identifiers of the virtual machines,
    the types of the genesis state, and the codec. A call into them is
    taken to return. *)
Class Platform : Type := {
  ID : Type;                       (* ids.ID *)
  Key32 : Type;                    (* [32]byte *)
  Key32_eq_dec :: EqDecision Key32;
  Key32_countable :: Countable Key32;
  ID_String : ID -> string;        (* ID.String() *)
  ID_Key : ID -> Key32;            (* ID.Key() *)
  ID_Equals : ID -> ID -> bool;    (* ID.Equals(other) *)
  ids_Empty : ID;

  platformvm_ID : ID;
  avm_ID : ID;
  evm_ID : ID;
  spdagvm_ID : ID;
  spchainvm_ID : ID;
  timestampvm_ID : ID;

  Account : Type;                  (* platformvm.Account *)
  EventHeap : Type;                (* platformvm.EventHeap *)
  EventHeap_zero : EventHeap;      (* platformvm.EventHeap{}: no validator *)
  CreateChainTx : Type;            (* platformvm.CreateChainTx *)
  VMID : CreateChainTx -> ID;      (* the field VMID *)
  CreateChainTx_ID : CreateChainTx -> ID  (* the method ID() *)
}.

Section WithPlatform.

Context `{Platform}.

(** [platformvm.Genesis]; a nil [*EventHeap] is [None]. *)
Record platformvm_Genesis : Type := {
  Accounts : list Account;
  Validators : option EventHeap;
  Chains : list CreateChainTx;
  Timestamp : N
}.

(** The zero value [platformvm.Genesis{}]. *)
Definition platformvm_Genesis_zero : platformvm_Genesis :=
  {| Accounts := []; Validators := None; Chains := []; Timestamp := 0 |}.

(** [platformvm.Codec] and the method [Initialize] of the genesis state. An error is
    [Some] message; [Unmarshal] and [Initialize] return the value their
    pointer argument holds afterwards. *)
Class Codec : Type := {
  Codec_Marshal : platformvm_Genesis -> list Byte.byte * option string;
  Codec_Unmarshal :
    list Byte.byte -> platformvm_Genesis -> platformvm_Genesis * option string;
  Genesis_Initialize : platformvm_Genesis -> platformvm_Genesis * option string
}.

Context `{Codec}.

(** A call returns or panics. *)
Inductive Result (A : Type) : Type :=
  | Returns (a : A)
  | Panics (msg : string).
Arguments Returns {A} a.
Arguments Panics {A} msg.

Definition bind {A B : Type} (r : Result A) (k : A -> Result B) : Result B :=
  match r with
  | Returns a => k a
  | Panics msg => Panics msg
  end.

(** The state from which [Genesis] builds the genesis bytes. *)
Definition genesisState : platformvm_Genesis :=
  {| Accounts := [];
     Validators := Some EventHeap_zero;
     Chains := [];
     Timestamp := 0 |}.

(** [Genesis] returns the genesis data of the Platform Chain. *)
Definition Genesis (networkID : uint32) : Result (list Byte.byte) :=
  if negb (networkID =? LocalID)%N then Panics "unknown network ID provided"
  else
    match Codec_Marshal genesisState with
    | (_, Some err) => Panics err
    | (genesisBytes, None) => Returns genesisBytes
    end.

(** The hardcoded tables of [Aliases], entry by entry. *)
Definition base_generalAliases : gmap string (list string) :=
  <["bc/" +:+ ID_String ids_Empty := ["P"; "platform"; "bc/P"; "bc/platform"]]>
  (<["vm/" +:+ ID_String timestampvm_ID := ["vm/timestamp"]]>
  (<["vm/" +:+ ID_String spchainvm_ID := ["vm/spchain"]]>
  (<["vm/" +:+ ID_String spdagvm_ID := ["vm/spdag"]]>
  (<["vm/" +:+ ID_String evm_ID := ["vm/evm"]]>
  (<["vm/" +:+ ID_String avm_ID := ["vm/avm"]]>
  (<["vm/" +:+ ID_String platformvm_ID := ["vm/platform"]]> ∅)))))).

Definition base_chainAliases : gmap Key32 (list string) :=
  <[ID_Key ids_Empty := ["P"; "platform"]]> ∅.

Definition base_vmAliases : gmap Key32 (list string) :=
  <[ID_Key timestampvm_ID := ["timestamp"]]>
  (<[ID_Key spchainvm_ID := ["spchain"]]>
  (<[ID_Key spdagvm_ID := ["spdag"]]>
  (<[ID_Key evm_ID := ["evm"]]>
  (<[ID_Key avm_ID := ["avm"]]>
  (<[ID_Key platformvm_ID := ["platform"]]> ∅))))).

(** The body of the loop over [genesis.Chains]: the [switch] on the
    virtual machine of the chain, acting on the pair of [generalAliases]
    and [chainAliases]. *)
Definition alias_chain
    (tables : gmap string (list string) * gmap Key32 (list string))
    (chain : CreateChainTx)
  : gmap string (list string) * gmap Key32 (list string) :=
  let '(generalAliases, chainAliases) := tables in
  let general := "bc/" +:+ ID_String (CreateChainTx_ID chain) in
  let key := ID_Key (CreateChainTx_ID chain) in
  if ID_Equals avm_ID (VMID chain) then
    (<[general := ["X"; "avm"; "bc/X"; "bc/avm"]]> generalAliases,
     <[key := ["X"; "avm"]]> chainAliases)
  else if ID_Equals evm_ID (VMID chain) then
    (<[general := ["C"; "evm"; "bc/C"; "bc/evm"]]> generalAliases,
     <[key := ["C"; "evm"]]> chainAliases)
  else if ID_Equals spdagvm_ID (VMID chain) then
    (<[general := ["bc/spdag"]]> generalAliases,
     <[key := ["spdag"]]> chainAliases)
  else if ID_Equals spchainvm_ID (VMID chain) then
    (<[general := ["bc/spchain"]]> generalAliases,
     <[key := ["spchain"]]> chainAliases)
  else if ID_Equals timestampvm_ID (VMID chain) then
    (<[general := ["bc/timestamp"]]> generalAliases,
     <[key := ["timestamp"]]> chainAliases)
  else (generalAliases, chainAliases).

Definition alias_chains (chains : list CreateChainTx)
    (tables : gmap string (list string) * gmap Key32 (list string))
  : gmap string (list string) * gmap Key32 (list string) :=
  fold_left alias_chain chains tables.

(** The genesis state that [Aliases] decodes: the errors of [Unmarshal]
    and of [Initialize] are dropped, as in the source. *)
Definition decoded_genesis (genesisBytes : list Byte.byte) : platformvm_Genesis :=
  let genesis := fst (Codec_Unmarshal genesisBytes platformvm_Genesis_zero) in
  fst (Genesis_Initialize genesis).

(** [Aliases] returns the default aliases based on the network ID:
    [(generalAliases, chainAliases, vmAliases)]. *)
Definition Aliases (networkID : uint32)
  : Result (gmap string (list string) * gmap Key32 (list string)
            * gmap Key32 (list string)) :=
  bind (Genesis networkID) (fun genesisBytes =>
    let genesis := decoded_genesis genesisBytes in
    let '(generalAliases, chainAliases) :=
      alias_chains (Chains genesis) (base_generalAliases, base_chainAliases) in
    Returns (generalAliases, chainAliases, base_vmAliases)).

(** [VMGenesis]: the first chain of the decoded genesis that runs [vmID],
    [None] for nil. *)
Definition VMGenesis (networkID : uint32) (vmID : ID)
  : Result (option CreateChainTx) :=
  bind (Genesis networkID) (fun genesisBytes =>
    let genesis := fst (Codec_Unmarshal genesisBytes platformvm_Genesis_zero) in
    Returns (List.find (fun chain => ID_Equals (VMID chain) vmID) (Chains genesis))).

(** What the alias tables ask of the codec, which is not among the source
    files: the bytes it writes for a genesis state without chains are
    read back, and initialised, as a state without chains. *)
Definition chainless_round_trip : Prop :=
  forall (g : platformvm_Genesis) (genesisBytes : list Byte.byte),
    Chains g = [] ->
    Codec_Marshal g = (genesisBytes, None) ->
    Chains (decoded_genesis genesisBytes) = [].

(** The identifiers of the six virtual machines, in the order of the
    hardcoded tables. *)
Definition vm_ids : list ID :=
  [platformvm_ID; avm_ID; evm_ID; spdagvm_ID; spchainvm_ID; timestampvm_ID].

(** The alias that the hardcoded tables give to each virtual machine. *)
Definition vm_alias_names : list (ID * string) :=
  [(platformvm_ID, "platform"); (avm_ID, "avm"); (evm_ID, "evm");
   (spdagvm_ID, "spdag"); (spchainvm_ID, "spchain");
   (timestampvm_ID, "timestamp")].

(** The aliases that the [switch] of the loop gives to a chain, by its
    virtual machine: those for [generalAliases] and those for
    [chainAliases]; [None] when no [case] applies. *)
Definition chain_aliases (chain : CreateChainTx)
  : option (list string * list string) :=
  if ID_Equals avm_ID (VMID chain) then
    Some (["X"; "avm"; "bc/X"; "bc/avm"], ["X"; "avm"])
  else if ID_Equals evm_ID (VMID chain) then
    Some (["C"; "evm"; "bc/C"; "bc/evm"], ["C"; "evm"])
  else if ID_Equals spdagvm_ID (VMID chain) then
    Some (["bc/spdag"], ["spdag"])
  else if ID_Equals spchainvm_ID (VMID chain) then
    Some (["bc/spchain"], ["spchain"])
  else if ID_Equals timestampvm_ID (VMID chain) then
    Some (["bc/timestamp"], ["timestamp"])
  else None.

End WithPlatform.

Arguments Returns {A} a.
Arguments Panics {A} msg.

(** ** The hardcoded keys and [init] *)

Definition Keys : list string :=
  ["ewoqjP7PxY4yr3iLTpLisriqt94hdyDFNgchSxGGztUrTXtNN"].

Definition Addresses : list string :=
  ["6Y3kysjF9jnHnYkdS9yGAuoHyae2eNmeV"].

Definition StakerIDs : list string :=
  [ "7Xhw2mDxuDS44j42TCB6U5579esbSt3Lg";
    "MFrZFVCXPv5iCn6M9K6XduxGTYp891xXZ";
    "NFBbbJ4qCmNaCzeW7sxErhvWqvEQMnYcN";
    "GWPcbFJZFfZreETSoWjPimr846mXEKCtu";
    "P7oB2McjBGgW2NXXWVYjV8JEDFoW9xDE5" ].

Section WithShortIDs.

(** [ids.ShortID] and [ids.ShortFromString], which package [ids] defines. *)
Context {ShortID : Type}.
Variable ShortFromString : string -> ShortID * option string.

(** One loop of [init]: every string is parsed and the result appended to
    the slice [parsed]; the first error is a panic. *)
Fixpoint parse_short_ids (strs : list string) (parsed : list ShortID)
  : Result (list ShortID) :=
  match strs with
  | [] => Returns parsed
  | str :: strs' =>
      match ShortFromString str with
      | (_, Some err) => Panics err
      | (id, None) => parse_short_ids strs' (parsed ++ [id])
      end
  end.

(** [init]: the values of [ParsedAddresses] and [ParsedStakerIDs], both
    empty before, when it returns. *)
Definition init : Result (list ShortID * list ShortID) :=
  bind (parse_short_ids Addresses []) (fun ParsedAddresses =>
  bind (parse_short_ids StakerIDs []) (fun ParsedStakerIDs =>
  Returns (ParsedAddresses, ParsedStakerIDs))).

End WithShortIDs.

(** A parser for the examples: a text of 33 bytes stands for the code of
    its first byte, anything else is an error. *)
Definition toy_ShortFromString (s : string) : N * option string :=
  match s with
  | String c _ =>
      if (String.length s =? 33)%nat then (N_of_ascii c, None)
      else (0%N, Some ("invalid short ID " +:+ s))
  | EmptyString => (0%N, Some "invalid short ID ")
  end.

(** A small platform for the examples: identifiers are numbers printed in
    decimal, and a chain is one byte, which names its virtual machine and,
    shifted by 100, the chain itself; the codec writes the chains and
    nothing else. *)
#[local] Instance toy_platform : Platform :=
  {| ID := N;
     Key32 := N;
     ID_String := Sprintf_d;
     ID_Key := fun id => id;
     ID_Equals := N.eqb;
     ids_Empty := 0%N;
     platformvm_ID := 1%N;
     avm_ID := 2%N;
     evm_ID := 3%N;
     spdagvm_ID := 4%N;
     spchainvm_ID := 5%N;
     timestampvm_ID := 6%N;
     Account := Empty_set;
     EventHeap := unit;
     EventHeap_zero := tt;
     CreateChainTx := Byte.byte;
     VMID := Byte.to_N;
     CreateChainTx_ID := fun chain => (100 + Byte.to_N chain)%N |}.

#[local] Instance toy_codec : Codec :=
  {| Codec_Marshal := fun g => (Chains g, None);
     Codec_Unmarshal := fun bytes g =>
       ({| Accounts := []; Validators := Some tt;
           Chains := bytes; Timestamp := 0 |}, None);
     Genesis_Initialize := fun g => (g, None) |}.

(** Another codec for the examples: the chains follow a header byte. *)
#[local] Instance toy_codec_framed : Codec :=
  {| Codec_Marshal := fun g => (Byte.x2a :: Chains g, None);
     Codec_Unmarshal := fun bytes g =>
       ({| Accounts := []; Validators := Some tt;
           Chains := tail bytes; Timestamp := 0 |}, None);
     Genesis_Initialize := fun g => (g, None) |}.

End GenesisPkg.

(* ===================================================================== *)
(** * The vote tally *)
(* ===================================================================== *)

Module Tally.

(** Modelled from the spec: the four states of the lifecycle of a
    container; the consensus engine that decides on containers is not
    among the source files. *)
Inductive Status : Type := Unknown | Processing | Accepted | Rejected.

(** Modelled from the spec: the per-container record of the vote tally
    (the consensus engine is not among the source files): the state of the
    container, the preference of the last conclusive round, and the
    confidence counter. *)
Record Container : Type := {
  status : Status;
  preference : nat;
  confidence : nat
}.

(** Modelled from the spec: what can happen to a container, one event for
    each transition rule of the vote tally. *)
Inductive Event : Type :=
  | Referenced
      (* named by an incoming PushQuery or Put, or issued locally *)
  | Round (pref : nat) (agree : nat)
      (* a polling round ended: [agree] chits arrived before the deadline
         in favour of the local preference [pref] *)
  | ConflictAccepted
      (* a container of the same conflict set was accepted *)
  | DescendantAccepted.
      (* a container that depends on this one was accepted *)

(** A container that was never observed. *)
Definition fresh : Container :=
  {| status := Unknown; preference := 0; confidence := 0 |}.

Section WithThresholds.

(** The quorum threshold and the confidence threshold. *)
Variables alpha beta : nat.

(** Modelled from the spec: the counter rule of a polling round, missing
    from the source files. With a quorum the counter is incremented, or
    set to 1 when the preference differs from the one of the previous
    round, which flips; without a quorum the counter is reset to 0 and
    the preference stays. *)
Definition tally (c : Container) (pref agree : nat) : Container :=
  if (alpha <=? agree)%nat then
    if (pref =? preference c)%nat
    then {| status := status c; preference := preference c;
            confidence := S (confidence c) |}
    else {| status := status c; preference := pref; confidence := 1 |}
  else {| status := status c; preference := preference c; confidence := 0 |}.

Definition decide_status (c : Container) (st : Status) : Container :=
  {| status := st; preference := preference c; confidence := confidence c |}.

(** Modelled from the spec: the transition rules of the container state
    machine, missing from the source files. A container starts being
    processed when it is first referenced; a round updates the counter,
    and the container is accepted once the counter reaches [beta]; an
    accepted conflicting container rejects it, an accepted descendant
    accepts it; the two decided states are terminal. *)
Definition step (c : Container) (ev : Event) : Container :=
  match status c with
  | Accepted | Rejected => c
  | Unknown =>
      match ev with
      | Referenced => decide_status c Processing
      | _ => c
      end
  | Processing =>
      match ev with
      | Referenced => c
      | Round pref agree =>
          let c' := tally c pref agree in
          if (beta <=? confidence c')%nat then decide_status c' Accepted else c'
      | ConflictAccepted => decide_status c Rejected
      | DescendantAccepted => decide_status c Accepted
      end
  end.

Definition run (c : Container) (evs : list Event) : Container :=
  fold_left step evs c.

(** What every reachable container satisfies: the counter of an unknown
    container is 0, and that of a container being processed is below the
    threshold. *)
Definition below_threshold (c : Container) : Prop :=
  (status c = Unknown -> confidence c = 0)
  /\ (status c = Processing -> confidence c < beta).

End WithThresholds.

End Tally.

(* ===================================================================== *)
(** * Properties of the test sender *)
(* ===================================================================== *)

Section SenderProperties.

Import Sender.

Context {ShortSet ShortID ID IDSet TestingT TestingB Act : Type}.

Local Abbreviation sender :=
  (ExternalSenderTest ShortSet ShortID ID IDSet TestingT TestingB Act).
Local Abbreviation arguments o := (args ShortSet ShortID ID IDSet (params o)).

Implicit Types (s : sender) (o : Op).

(** With the handler nil, a call does what the two [else if] branches say. *)
Lemma invoke_nil_handler s o (a : arguments o) :
  handlerF s o = None ->
  invoke s o a =
    match cant s o, T s with
    | true, Some t => [TFatalf t ("Unexpectedly called " +:+ name o)]
    | _, _ =>
        match cant s o, B s with
        | true, Some b => [BFatalf b ("Unexpectedly called " +:+ name o)]
        | _, _ => []
        end
    end.
Proof.
  unfold invoke.
  destruct o; cbn [handlerF method params call name cant];
    unfold GetAcceptedFrontier, AcceptedFrontier, GetAccepted, Accepted,
      Get, Put, PushQuery, PullQuery, Chits;
    intros ->; reflexivity.
Qed.

(** With a handler [f] installed, a call runs [f] on the arguments. *)
Lemma invoke_handler s o (a : arguments o) f :
  handlerF s o = Some f ->
  invoke s o a = [Run (call (params o) f a)].
Proof.
  unfold invoke.
  destruct o; cbn [handlerF method params call];
    unfold GetAcceptedFrontier, AcceptedFrontier, GetAccepted, Accepted,
      Get, Put, PushQuery, PullQuery, Chits;
    intros ->; reflexivity.
Qed.

(** C3. The sender has exactly nine message operations, with the nine
    names of the message kinds, and each takes the chain identifier as its
    second and a [uint32] request identifier as its third argument. *)
Theorem sender_nine_operations :
  length all_ops = 9
  /\ NoDup all_ops
  /\ (forall o, In o all_ops)
  /\ map name all_ops =
       [ "GetAcceptedFrontier"; "AcceptedFrontier"; "GetAccepted";
         "Accepted"; "Get"; "Put"; "PushQuery"; "PullQuery"; "Chits" ]
  /\ (forall o, nth_error (params o) 1 = Some TID
                /\ nth_error (params o) 2 = Some TUint32).
Proof.
  split; [reflexivity|].
  split.
  { unfold all_ops.
    repeat (apply NoDup_cons_2;
            [rewrite ?elem_of_cons, elem_of_nil; intuition discriminate|]).
    apply NoDup_nil_2. }
  split; [intros []; cbn; tauto|].
  split; [reflexivity|].
  intros []; split; reflexivity.
Qed.

(** C1, as amended. [GetAcceptedFrontier], [GetAccepted], [PushQuery] and
    [PullQuery] take a set of peers as their first argument; [Get], like
    the four response-style operations, takes exactly one peer. *)
Theorem sender_first_argument :
  (forall o, In o [OpGetAcceptedFrontier; OpGetAccepted; OpPushQuery; OpPullQuery] ->
             hd_error (params o) = Some TShortSet)
  /\ hd_error (params OpGet) = Some TShortID
  /\ (forall o, In o response_style -> hd_error (params o) = Some TShortID).
Proof.
  repeat split; intros o Ho; cbn in Ho;
    repeat (destruct Ho as [<- | Ho]; [reflexivity|]); destruct Ho.
Qed.

(** C2, as amended. With the handler nil and the flag set, a call reports
    the violation on [T] if [T] is attached, and otherwise on [B] if [B]
    is attached; it is the only thing the call does. *)
Theorem sender_unexpected_call_is_fatal s o (a : arguments o) :
  handlerF s o = None ->
  cant s o = true ->
  T s <> None \/ B s <> None ->
  (forall t, T s = Some t ->
     invoke s o a = [TFatalf t ("Unexpectedly called " +:+ name o)])
  /\ (forall b, T s = None -> B s = Some b ->
     invoke s o a = [BFatalf b ("Unexpectedly called " +:+ name o)])
  /\ exists e, invoke s o a = [e] /\ is_fatal e = true.
Proof.
  intros Hnil Hcant Hhandle.
  rewrite (invoke_nil_handler s o a Hnil), Hcant.
  destruct (T s) as [t|] eqn:HT.
  - split; [intros ? [= <-]; reflexivity|].
    split; [discriminate|]. eexists; split; reflexivity.
  - destruct (B s) as [b|] eqn:HB.
    + split; [discriminate|].
      split; [intros ? _ [= <-]; reflexivity|]. eexists; split; reflexivity.
    + destruct Hhandle as [H|H]; contradiction.
Qed.

(** C4. A call can only fail the test through an attached testing handle:
    with [T] and [B] both nil no call of any operation contains a
    [Fatalf], whatever the flags and the handlers are (without a handler
    it does nothing at all); and a call that does contain one was made
    with [T] or [B] attached. *)
Theorem sender_no_handle_no_failure s o (a : arguments o) :
  (T s = None -> B s = None ->
     Forall (fun e => is_fatal e = false) (invoke s o a)
     /\ (handlerF s o = None -> invoke s o a = []))
  /\ (Exists (fun e => is_fatal e = true) (invoke s o a) ->
      T s <> None \/ B s <> None).
Proof.
  destruct (handlerF s o) as [f|] eqn:Hf.
  - rewrite (invoke_handler s o a f Hf). split.
    + intros _ _. split; [repeat constructor|discriminate].
    + intros Hex. apply Exists_cons in Hex as [Hex|Hex]; [discriminate Hex|].
      now apply Exists_nil in Hex.
  - rewrite (invoke_nil_handler s o a Hf). split.
    + intros -> ->. destruct (cant s o); split; auto.
    + destruct (cant s o), (T s) as [t|], (B s) as [b|];
        intros Hex; try (left; discriminate); try (right; discriminate);
        now apply Exists_nil in Hex.
Qed.

(** C7. [Default] gives each of the nine flags the value [cant] and
    leaves [T], [B] and the nine handlers as they were; and what an
    operation does depends on no flag but its own. *)
Theorem sender_default_frame s (c : bool) :
  (forall o, cant (Default s c) o = c)
  /\ T (Default s c) = T s
  /\ B (Default s c) = B s
  /\ (forall o, handlerF (Default s c) o = handlerF s o)
  /\ (forall s' o (a : arguments o),
        T s' = T s -> B s' = B s -> handlerF s' o = handlerF s o ->
        cant s' o = cant s o ->
        invoke s' o a = invoke s o a).
Proof.
  split; [intros []; reflexivity|].
  split; [reflexivity|].
  split; [reflexivity|].
  split; [intros []; reflexivity|].
  intros s' o a HT HB HF HC.
  destruct (handlerF s o) as [f|] eqn:Hf.
  - rewrite (invoke_handler s o a f Hf), (invoke_handler s' o a f HF).
    reflexivity.
  - rewrite (invoke_nil_handler s o a Hf), (invoke_nil_handler s' o a HF).
    rewrite HT, HB, HC. reflexivity.
Qed.

(** C9. With a handler installed, a call of the operation runs that
    handler once, on the arguments of the call, and does nothing else: no
    [Fatalf], whatever the flag, [T] and [B] are. *)
Theorem sender_handler_precedence s o (a : arguments o) f :
  handlerF s o = Some f ->
  invoke s o a = [Run (call (params o) f a)]
  /\ Forall (fun e => is_fatal e = false) (invoke s o a).
Proof.
  intros Hf. rewrite (invoke_handler s o a f Hf).
  split; [reflexivity|]. repeat constructor.
Qed.

End SenderProperties.

(** C1 as stated fails: [Get] is in the request family and its first
    argument is a single [ids.ShortID]. *)
Lemma sender_get_targets_one_peer :
  ~ ((forall o, In o Sender.request_style ->
        hd_error (Sender.params o) = Some Sender.TShortSet)
     /\ (forall o, In o Sender.response_style ->
        hd_error (Sender.params o) = Some Sender.TShortID)).
Proof.
  intros [H _]. specialize (H Sender.OpGet). cbn in H.
  assert (E : Some Sender.TShortID = Some Sender.TShortSet) by (apply H; tauto).
  discriminate E.
Qed.

Lemma sender_first_argument_witness :
  In Sender.OpPullQuery
     [Sender.OpGetAcceptedFrontier; Sender.OpGetAccepted;
      Sender.OpPushQuery; Sender.OpPullQuery]
  /\ hd_error (Sender.params Sender.OpPullQuery) = Some Sender.TShortSet
  /\ In Sender.OpChits Sender.response_style
  /\ hd_error (Sender.params Sender.OpChits) = Some Sender.TShortID.
Proof.
  destruct sender_first_argument as (Hset & _ & Hone).
  assert (H1 : In Sender.OpPullQuery
                 [Sender.OpGetAcceptedFrontier; Sender.OpGetAccepted;
                  Sender.OpPushQuery; Sender.OpPullQuery]) by (cbn; tauto).
  assert (H2 : In Sender.OpChits Sender.response_style) by (cbn; tauto).
  split; [exact H1|]. split; [exact (Hset _ H1)|].
  split; [exact H2|]. exact (Hone _ H2).
Defined.

(** C2 as stated fails: with neither [T] nor [B] attached the call does
    nothing, although the handler is nil and the flag is set. *)
Lemma sender_unexpected_call_silent :
  Sender.handlerF Sender.bare_sender Sender.OpGet = None
  /\ Sender.cant Sender.bare_sender Sender.OpGet = true
  /\ Sender.invoke Sender.bare_sender Sender.OpGet (7%N, (1%N, (3%N, (9%N, tt)))) = []
  /\ ~ (forall (s : Sender.Sender0) o a,
          Sender.handlerF s o = None -> Sender.cant s o = true ->
          Exists (fun e => Sender.is_fatal e = true) (Sender.invoke s o a)).
Proof.
  repeat split.
  intros H.
  specialize (H Sender.bare_sender Sender.OpGet (7%N, (1%N, (3%N, (9%N, tt))))
                eq_refl eq_refl).
  cbn in H. inversion H.
Qed.

Lemma sender_unexpected_call_is_fatal_witness :
  Sender.handlerF Sender.tested_sender Sender.OpChits = None
  /\ Sender.cant Sender.tested_sender Sender.OpChits = true
  /\ Sender.invoke Sender.tested_sender Sender.OpChits (7%N, (1%N, (3%N, ([9%N], tt))))
       = [Sender.TFatalf "t" "Unexpectedly called Chits"].
Proof.
  split; [reflexivity|]. split; [reflexivity|].
  apply (sender_unexpected_call_is_fatal Sender.tested_sender Sender.OpChits
           (7%N, (1%N, (3%N, ([9%N], tt)))) eq_refl eq_refl).
  - left; discriminate.
  - reflexivity.
Defined.

Lemma sender_no_handle_no_failure_witness :
  Sender.T Sender.bare_sender = None
  /\ Sender.B Sender.bare_sender = None
  /\ Forall (fun e => Sender.is_fatal e = false)
        (Sender.invoke Sender.bare_sender Sender.OpPushQuery
           ([7%N; 8%N], (1%N, (3%N, (9%N, ([], tt))))))
  /\ Sender.T Sender.tested_sender <> None.
Proof.
  split; [reflexivity|]. split; [reflexivity|]. split.
  - apply (proj1 (sender_no_handle_no_failure Sender.bare_sender
                    Sender.OpPushQuery
                    ([7%N; 8%N], (1%N, (3%N, (9%N, ([], tt)))))));
      reflexivity.
  - destruct (proj2 (sender_no_handle_no_failure Sender.tested_sender
                       Sender.OpGet (7%N, (1%N, (3%N, (9%N, tt))))))
      as [HT|HB].
    + apply Exists_cons_hd. reflexivity.
    + exact HT.
    + discriminate.
Defined.

Lemma sender_default_frame_witness :
  Sender.cant (Sender.Default Sender.tested_sender false) Sender.OpGet = false
  /\ Sender.invoke Sender.tested_sender_get_allowed Sender.OpPut
        (7%N, (1%N, (3%N, (9%N, ([], tt)))))
      = Sender.invoke Sender.tested_sender Sender.OpPut
        (7%N, (1%N, (3%N, (9%N, ([], tt))))).
Proof.
  pose proof (sender_default_frame Sender.tested_sender false)
    as (Hc & _ & _ & _ & Hi).
  split; [apply Hc|].
  apply (Hi Sender.tested_sender_get_allowed Sender.OpPut); reflexivity.
Defined.

Lemma sender_handler_precedence_witness :
  Sender.cant Sender.put_sender Sender.OpPut = true
  /\ Sender.invoke Sender.put_sender Sender.OpPut
        (7%N, (1%N, (3%N, (9%N, ([], tt)))))
      = [Sender.Run ("put", 3%N)].
Proof.
  split; [reflexivity|].
  apply (sender_handler_precedence Sender.put_sender Sender.OpPut
           (7%N, (1%N, (3%N, (9%N, ([], tt))))) _ eq_refl).
Defined.

(* ===================================================================== *)
(** * Properties of network naming *)
(* ===================================================================== *)

Section NetworkNaming.

Import GoLib GenesisPkg.

Lemma N_of_digit_char (d : N) :
  (d < 10)%N -> N_of_ascii (digit_char d) = (48 + d)%N.
Proof.
  intros Hd. unfold digit_char. apply N_ascii_embedding. lia.
Qed.

Lemma is_digit_digit_char (d : N) :
  (d < 10)%N -> is_digit (digit_char d) = true.
Proof.
  intros Hd. unfold is_digit. rewrite (N_of_digit_char d Hd).
  apply andb_true_intro; split; apply N.leb_le; lia.
Qed.

Lemma is_digit_not_upper (c : ascii) :
  is_digit c = true -> is_upper c = false.
Proof.
  unfold is_digit, is_upper. intros H.
  apply andb_prop in H as [_ H]. apply N.leb_le in H.
  apply andb_false_intro1. apply N.leb_gt. lia.
Qed.

Lemma mod10_lt (u : N) : (u mod 10 < 10)%N.
Proof. apply N.mod_lt. discriminate. Qed.

Lemma fmt_decimal_S (fuel : nat) (u : N) (buf : string) :
  fmt_decimal (S fuel) u buf =
    if (u <? 10)%N then String (digit_char u) buf
    else fmt_decimal fuel (u / 10) (String (digit_char (u mod 10)) buf).
Proof. reflexivity. Qed.

(** The formatted text starts with a digit, whatever the buffer holds. *)
Lemma fmt_decimal_head (fuel : nat) :
  forall (u : N) (buf : string),
    exists c rest,
      fmt_decimal (S fuel) u buf = String c rest /\ is_digit c = true.
Proof.
  induction fuel as [|fuel IH]; intros u buf; cbn [fmt_decimal].
  - destruct (u <? 10)%N eqn:Hu.
    + apply N.ltb_lt in Hu. eauto using is_digit_digit_char.
    + eauto using is_digit_digit_char, mod10_lt.
  - destruct (u <? 10)%N eqn:Hu.
    + apply N.ltb_lt in Hu. eauto using is_digit_digit_char.
    + apply IH.
Qed.

(** It consists of digits if the buffer does. *)
Lemma fmt_decimal_digits (fuel : nat) :
  forall (u : N) (buf : string),
    string_forall is_digit buf = true ->
    string_forall is_digit (fmt_decimal fuel u buf) = true.
Proof.
  induction fuel as [|fuel IH]; intros u buf Hbuf; cbn [fmt_decimal]; [exact Hbuf|].
  destruct (u <? 10)%N eqn:Hu.
  - apply N.ltb_lt in Hu. cbn. now rewrite is_digit_digit_char, Hbuf.
  - apply IH. cbn. now rewrite is_digit_digit_char, Hbuf by apply mod10_lt.
Qed.

Lemma ToLower_digits (s : string) :
  string_forall is_digit s = true -> ToLower s = s.
Proof.
  induction s as [|c s IH]; cbn; [reflexivity|].
  intros H. apply andb_prop in H as [Hc Hs].
  unfold lower. now rewrite (is_digit_not_upper c Hc), (IH Hs).
Qed.

(** One round of the digit loop on a digit that does not overflow. *)
Lemma parse_digits_step (d n : N) (rest : string) :
  (d < 10)%N -> (n * 10 + d <= maxUint64)%N ->
  parse_digits (String (digit_char d) rest) n = parse_digits rest (n * 10 + d).
Proof.
  intros Hd Hmax. cbn [parse_digits].
  rewrite (is_digit_digit_char d Hd), (N_of_digit_char d Hd).
  replace (48 + d - 48)%N with d by lia.
  unfold maxUint64 in *.
  change (18446744073709551615 / 10 + 1)%N with 1844674407370955162%N.
  change (2 ^ 64)%N with 18446744073709551616%N.
  destruct (N.leb_spec 1844674407370955162 n) as [Hn|Hn]; [lia|].
  rewrite (N.mod_small (n * 10)) by lia.
  rewrite (N.mod_small (n * 10 + d)) by lia.
  destruct (N.ltb_spec (n * 10 + d) (n * 10)) as [H1|H1]; [lia|].
  destruct (N.ltb_spec 18446744073709551615 (n * 10 + d)) as [H2|H2]; [lia|].
  reflexivity.
Qed.

(** Parsing what [%d] printed continues from the printed number. *)
Lemma parse_digits_fmt_decimal (fuel : nat) :
  forall (u : N) (buf : string),
    (u < 10 ^ N.of_nat (S fuel))%N -> (u <= maxUint64)%N ->
    parse_digits (fmt_decimal (S fuel) u buf) 0 = parse_digits buf u.
Proof.
  induction fuel as [|fuel IH]; intros u buf Hlen Hmax.
  - change (10 ^ N.of_nat 1)%N with 10%N in Hlen.
    cbn [fmt_decimal]. apply N.ltb_lt in Hlen as Hlt. rewrite Hlt.
    now rewrite parse_digits_step by (cbn; lia).
  - rewrite fmt_decimal_S. destruct (N.ltb_spec u 10) as [Hu|Hu].
    + now rewrite parse_digits_step by (cbn; lia).
    + pose proof (N.div_mod u 10 ltac:(discriminate)) as Hdm.
      pose proof (mod10_lt u) as Hm.
      assert (Hq : (u / 10 < 10 ^ N.of_nat (S fuel))%N).
      { apply N.Div0.div_lt_upper_bound.
        replace (N.of_nat (S (S fuel))) with (N.succ (N.of_nat (S fuel))) in Hlen by lia.
        now rewrite N.pow_succ_r' in Hlen. }
      assert (Hqmax : (u / 10 <= maxUint64)%N).
      { unfold maxUint64 in *. clear - Hmax Hdm.
        generalize dependent (u / 10)%N. generalize (u mod 10)%N. lia. }
      rewrite (IH (u / 10)%N _ Hq Hqmax).
      rewrite parse_digits_step by (try apply mod10_lt; lia).
      f_equal. lia.
Qed.

Lemma is_digit_not_sign (c : ascii) :
  is_digit c = true -> Ascii.eqb c "-" = false /\ Ascii.eqb c "+" = false.
Proof.
  intros Hc. split; apply Ascii.eqb_neq; intros ->; discriminate Hc.
Qed.

(** [Atoi] reads back what [%d] printed for a [uint32]. *)
Lemma Atoi_Sprintf_d (u : N) :
  (u < 2 ^ 32)%N -> Atoi (Sprintf_d u) = (Z.of_N u, None).
Proof.
  intros Hu. change (2 ^ 32)%N with 4294967296%N in Hu.
  unfold Atoi, ParseInt, Sprintf_d.
  destruct (fmt_decimal_head 19 u "") as (c & rest & Heq & Hc).
  pose proof (parse_digits_fmt_decimal 19 u "") as Hparse.
  rewrite Heq in *.
  destruct (is_digit_not_sign c Hc) as [-> ->].
  cbn [orb negb andb]. unfold ParseUint. rewrite Hparse.
  - cbn [parse_digits]. change (2 ^ 63)%N with 9223372036854775808%N.
    destruct (N.leb_spec 9223372036854775808 u); [lia|reflexivity].
  - change (10 ^ N.of_nat 20)%N with 100000000000000000000%N. lia.
  - unfold maxUint64. lia.
Qed.

Lemma NetworkName_unnamed (networkID : uint32) :
  networkID <> MainnetID -> networkID <> TestnetID -> networkID <> LocalID ->
  NetworkName networkID = "network-" +:+ Sprintf_d networkID.
Proof.
  intros H1 H2 H3. unfold NetworkName, NetworkIDToNetworkName.
  rewrite !lookup_insert_ne by congruence. now rewrite lookup_empty.
Qed.

(** [NetworkID] on a name of the form [network-<digits>]. *)
Lemma NetworkID_unnamed (u : N) :
  (u < 2 ^ 32)%N -> NetworkID ("network-" +:+ Sprintf_d u) = (u, None).
Proof.
  intros Hu.
  pose proof (Atoi_Sprintf_d u Hu) as HAtoi.
  assert (Hdigits : string_forall is_digit (Sprintf_d u) = true)
    by (apply fmt_decimal_digits; reflexivity).
  destruct (fmt_decimal_head 19 u "") as (c & rest & Heq & Hc).
  fold (Sprintf_d u) in Heq.
  unfold NetworkID.
  change (ToLower ("network-" +:+ Sprintf_d u))
    with ("network-" +:+ ToLower (Sprintf_d u)).
  rewrite (ToLower_digits _ Hdigits).
  unfold NetworkNameToNetworkID.
  rewrite !lookup_insert_ne by (cbn; discriminate).
  rewrite lookup_empty.
  change (ParseUint ("network-" +:+ Sprintf_d u)) with (0%N, Some ErrSyntax).
  cbv beta iota zeta.
  change (slice_from 8 ("network-" +:+ Sprintf_d u)) with (Sprintf_d u).
  rewrite HAtoi.
  assert (Hmatch : validNetworkName_MatchString ("network-" +:+ Sprintf_d u) = true).
  { rewrite Heq. cbv -[is_digit]. now rewrite Hc. }
  rewrite Hmatch.
  change (2 ^ 32)%N with 4294967296%N in Hu.
  unfold MaxUint32.
  destruct (Z.gtb_spec (Z.of_N u) 4294967295) as [H|H]; [lia|].
  change (2 ^ 32)%Z with 4294967296%Z.
  rewrite Z.mod_small by lia. now rewrite N2Z.id.
Qed.

(** The slice [networkName[8:]] of [NetworkID] is within bounds: a name
    that matches the pattern has at least nine bytes. *)
Lemma slice_from_length (n : nat) :
  forall (s : string) (d : ascii) (rest : string),
    slice_from n s = String d rest -> n < String.length s.
Proof.
  induction n as [|n IH]; intros [|c s] d rest Hs; cbn in *;
    try discriminate; try lia.
  apply IH in Hs. lia.
Qed.

Lemma MatchString_length (s : string) :
  validNetworkName_MatchString s = true -> 9 <= String.length s.
Proof.
  induction s as [|c s IH]; [discriminate|].
  change (validNetworkName_MatchString (String c s))
    with (String.prefix "network-" (String c s)
          && match slice_from 8 (String c s) with
             | String d _ => is_digit d
             | EmptyString => false
             end
          || validNetworkName_MatchString s).
  intros Hm. apply orb_prop in Hm as [Hm|Hm].
  - apply andb_prop in Hm as [_ Hm].
    destruct (slice_from 8 (String c s)) as [|d rest] eqn:Hs; [discriminate|].
    apply slice_from_length in Hs. lia.
  - apply IH in Hm. cbn [String.length]. lia.
Qed.

(** C6. Naming a network and parsing the name gives the network back,
    without an error, for every [uint32]; the other direction loses the
    name [testnet], which parses to the network called [borealis]. *)
Theorem network_name_round_trip :
  (forall networkID : uint32,
     (networkID < 2 ^ 32)%N ->
     NetworkID (NetworkName networkID) = (networkID, None))
  /\ NetworkID "testnet" = (TestnetID, None)
  /\ NetworkName TestnetID = "borealis".
Proof.
  split; [|split; reflexivity].
  intros networkID Hrange.
  destruct (decide (networkID = MainnetID)) as [->|H1]; [reflexivity|].
  destruct (decide (networkID = TestnetID)) as [->|H2]; [reflexivity|].
  destruct (decide (networkID = LocalID)) as [->|H3]; [reflexivity|].
  rewrite (NetworkName_unnamed networkID H1 H2 H3).
  apply NetworkID_unnamed, Hrange.
Qed.

End NetworkNaming.

Lemma network_name_round_trip_witness :
  (4294967295 < 2 ^ 32)%N
  /\ GenesisPkg.NetworkName 4294967295%N = "network-4294967295"
  /\ GenesisPkg.NetworkID "network-4294967295" = (4294967295%N, None).
Proof.
  split; [reflexivity|]. split; [reflexivity|].
  change "network-4294967295" with (GenesisPkg.NetworkName 4294967295%N).
  apply (proj1 network_name_round_trip 4294967295%N). reflexivity.
Defined.

(* ===================================================================== *)
(** * Properties of the genesis state and of the alias tables *)
(* ===================================================================== *)

Section GenesisProperties.

Import GoLib GenesisPkg.

Context `{Platform} `{!Codec}.

Implicit Types (general : gmap string (list string)).
Implicit Types (byKey : gmap Key32 (list string)).

Lemma Genesis_other_network (networkID : uint32) :
  networkID <> LocalID ->
  Genesis networkID = Panics "unknown network ID provided".
Proof.
  intros Hne. unfold Genesis.
  destruct (N.eqb_spec networkID LocalID) as [->|_]; [contradiction|reflexivity].
Qed.

(** C5. [Genesis] panics on every network but the local one, where it
    returns the bytes that the codec gives for the empty genesis state (or
    panics with the codec's error); [Aliases] and [VMGenesis], which start
    by calling it, panic on every other network as well. *)
Theorem genesis_only_local (networkID : uint32) :
  (networkID <> LocalID ->
     Genesis networkID = Panics "unknown network ID provided"
     /\ Aliases networkID = Panics "unknown network ID provided"
     /\ forall vmID, VMGenesis networkID vmID = Panics "unknown network ID provided")
  /\ (networkID = LocalID ->
       Genesis networkID =
         match Codec_Marshal genesisState with
         | (_, Some err) => Panics err
         | (genesisBytes, None) => Returns genesisBytes
         end)
  /\ LocalID = 12345%N
  /\ Accounts genesisState = []
  /\ Validators genesisState = Some EventHeap_zero
  /\ Chains genesisState = []
  /\ Timestamp genesisState = 0%N.
Proof.
  split.
  { intros Hne. unfold Aliases, VMGenesis.
    rewrite (Genesis_other_network networkID Hne). repeat split. }
  split; [intros ->; reflexivity|].
  repeat split.
Qed.

(** *** The loop over the chains *)

Lemma alias_chain_cases general byKey (chain : CreateChainTx) :
  alias_chain (general, byKey) chain = (general, byKey)
  \/ exists a b,
       alias_chain (general, byKey) chain =
         (<["bc/" +:+ ID_String (CreateChainTx_ID chain) := a]> general,
          <[ID_Key (CreateChainTx_ID chain) := b]> byKey).
Proof.
  unfold alias_chain.
  repeat match goal with
         | |- context [if ?b then _ else _] => destruct b
         end; eauto.
Qed.

(** The loop removes no key of either table. *)
Lemma alias_chains_keeps_keys (chains : list CreateChainTx) :
  forall general byKey,
    (forall k, is_Some (general !! k) ->
               is_Some ((alias_chains chains (general, byKey)).1 !! k))
    /\ (forall k, is_Some (byKey !! k) ->
               is_Some ((alias_chains chains (general, byKey)).2 !! k)).
Proof.
  unfold alias_chains.
  induction chains as [|chain chains IH]; intros general byKey; cbn [fold_left].
  - split; auto.
  - destruct (alias_chain_cases general byKey chain) as [->|(a & b & ->)].
    + apply IH.
    + destruct (IH (<["bc/" +:+ ID_String (CreateChainTx_ID chain) := a]> general)
                   (<[ID_Key (CreateChainTx_ID chain) := b]> byKey)) as [IHg IHk].
      split; intros k Hk.
      * apply IHg. rewrite lookup_insert_is_Some.
        destruct (decide ("bc/" +:+ ID_String (CreateChainTx_ID chain) = k)); auto.
      * apply IHk. rewrite lookup_insert_is_Some.
        destruct (decide (ID_Key (CreateChainTx_ID chain) = k)); auto.
Qed.

(** It leaves alone every entry whose key is not that of a chain. *)
Lemma alias_chains_lookup_general (chains : list CreateChainTx) :
  forall general byKey (k : string),
    Forall (fun chain => "bc/" +:+ ID_String (CreateChainTx_ID chain) <> k) chains ->
    (alias_chains chains (general, byKey)).1 !! k = general !! k.
Proof.
  unfold alias_chains.
  induction chains as [|chain chains IH]; intros general byKey k Hk;
    cbn [fold_left]; [reflexivity|].
  inversion Hk as [|? ? Hchain Hrest]; subst.
  destruct (alias_chain_cases general byKey chain) as [->|(a & b & ->)].
  - now apply IH.
  - rewrite IH by assumption. now apply lookup_insert_ne.
Qed.

Lemma alias_chains_lookup_byKey (chains : list CreateChainTx) :
  forall general byKey (k : Key32),
    Forall (fun chain => ID_Key (CreateChainTx_ID chain) <> k) chains ->
    (alias_chains chains (general, byKey)).2 !! k = byKey !! k.
Proof.
  unfold alias_chains.
  induction chains as [|chain chains IH]; intros general byKey k Hk;
    cbn [fold_left]; [reflexivity|].
  inversion Hk as [|? ? Hchain Hrest]; subst.
  destruct (alias_chain_cases general byKey chain) as [->|(a & b & ->)].
  - now apply IH.
  - rewrite IH by assumption. now apply lookup_insert_ne.
Qed.

Lemma vm_key_ne_bc_key (a b : string) : "bc/" +:+ a <> "vm/" +:+ b.
Proof. intros Heq. inversion Heq. Qed.

Lemma vm_key_inj (a b : string) : "vm/" +:+ a = "vm/" +:+ b -> a = b.
Proof. intros Heq. now inversion Heq. Qed.

(** The hardcoded tables hold the alias of each virtual machine. *)
Lemma base_tables_vm_entries :
  NoDup (map ID_String vm_ids) ->
  NoDup (map ID_Key vm_ids) ->
  Forall (fun '(id, alias) =>
            base_generalAliases !! ("vm/" +:+ ID_String id) = Some ["vm/" +:+ alias]
            /\ base_vmAliases !! ID_Key id = Some [alias])
         vm_alias_names.
Proof.
  intros Hstr Hkey. cbn [map vm_ids] in Hstr, Hkey.
  split_NoDup Hstr. split_NoDup Hkey.
  unfold vm_alias_names, base_generalAliases, base_vmAliases.
  repeat apply Forall_cons_2; [..|apply Forall_nil_2]; split;
    repeat first
      [ apply lookup_insert_eq
      | rewrite lookup_insert_ne
          by (first [ apply vm_key_ne_bc_key
                    | intros Heq; apply vm_key_inj in Heq; intuition congruence
                    | intuition congruence ]) ].
Qed.

Lemma base_tables_platform_entries :
  base_generalAliases !! ("bc/" +:+ ID_String ids_Empty)
    = Some ["P"; "platform"; "bc/P"; "bc/platform"]
  /\ base_chainAliases !! ID_Key ids_Empty = Some ["P"; "platform"].
Proof. split; apply lookup_insert_eq. Qed.

(** What [Aliases] returns, in terms of the loop. *)
Lemma Aliases_returns (networkID : uint32) general byKey byVM :
  Aliases networkID = Returns (general, byKey, byVM) ->
  exists genesisBytes,
    Genesis networkID = Returns genesisBytes
    /\ alias_chains (Chains (decoded_genesis genesisBytes))
         (base_generalAliases, base_chainAliases) = (general, byKey)
    /\ byVM = base_vmAliases.
Proof.
  unfold Aliases. destruct (Genesis networkID) as [genesisBytes|msg]; cbn [bind];
    [|discriminate].
  destruct (alias_chains _ _) as [g c] eqn:Hloop. intros [= <- <- <-].
  exists genesisBytes. auto.
Qed.

(** The loop on two chains, one of the AVM and one of the EVM. *)
Example alias_chains_two_chains :
  let tables :=
    @alias_chains toy_platform [Byte.x02; Byte.x03]
      (@base_generalAliases toy_platform, @base_chainAliases toy_platform) in
  tables.1 !! "bc/102" = Some ["X"; "avm"; "bc/X"; "bc/avm"]
  /\ tables.2 !! 103%N = Some ["C"; "evm"]
  /\ tables.1 !! "bc/0" = Some ["P"; "platform"; "bc/P"; "bc/platform"]
  /\ tables.1 !! "vm/6" = Some ["vm/timestamp"]
  /\ tables.2 !! 0%N = Some ["P"; "platform"].
Proof. vm_compute. repeat split. Qed.

End GenesisProperties.

Lemma genesis_only_local_witness :
  7%N <> GenesisPkg.LocalID
  /\ @GenesisPkg.Genesis GenesisPkg.toy_platform GenesisPkg.toy_codec 7%N
       = GenesisPkg.Panics "unknown network ID provided"
  /\ @GenesisPkg.Genesis GenesisPkg.toy_platform GenesisPkg.toy_codec 12345%N
       = GenesisPkg.Returns [].
Proof.
  split; [discriminate|]. split.
  - apply (proj1 (@genesis_only_local GenesisPkg.toy_platform
                    GenesisPkg.toy_codec 7%N)).
    discriminate.
  - apply (proj1 (proj2 (@genesis_only_local GenesisPkg.toy_platform
                           GenesisPkg.toy_codec 12345%N))).
    reflexivity.
Defined.

(* ===================================================================== *)
(** * The alias tables of two calls *)
(* ===================================================================== *)

Section AliasTables.

Import GoLib GenesisPkg.

Context `{Platform}.

(** [platformvm.Codec] is a package variable: a call of [Aliases] finds it
    in some state [C], another call in some state [C']. *)
Variables C C' : Codec.

Implicit Types (general : gmap string (list string)).
Implicit Types (byKey : gmap Key32 (list string)).

(** [Genesis] returns the bytes that the codec wrote for [genesisState]. *)
Lemma Genesis_returns (codec : Codec) (networkID : uint32)
    (genesisBytes : list Byte.byte) :
  @Genesis _ codec networkID = Returns genesisBytes ->
  networkID = LocalID
  /\ @Codec_Marshal _ codec genesisState = (genesisBytes, None).
Proof.
  unfold Genesis.
  destruct (N.eqb_spec networkID LocalID) as [->|Hne]; cbn [negb];
    [|discriminate].
  destruct (@Codec_Marshal _ codec genesisState) as [bytes [err|]];
    [discriminate|].
  now intros [= ->].
Qed.

(** With a codec that keeps a state without chains so, [Aliases] returns
    the hardcoded tables: [genesisState] has no chain, and the loop has
    nothing to do. *)
Lemma Aliases_chainless (codec : Codec) (networkID : uint32) r :
  @chainless_round_trip _ codec ->
  @Aliases _ codec networkID = Returns r ->
  r = (base_generalAliases, base_chainAliases, base_vmAliases).
Proof.
  intros Hcodec Hret. destruct r as [[general byKey] byVM].
  destruct (@Aliases_returns _ codec _ _ _ _ Hret)
    as (genesisBytes & Hgen & Hloop & ->).
  apply Genesis_returns in Hgen as [_ Hmarshal].
  rewrite (Hcodec genesisState genesisBytes eq_refl Hmarshal) in Hloop.
  cbn in Hloop. now injection Hloop as <- <-.
Qed.

(** The six keys of the virtual machines are in the hardcoded tables. *)
Lemma base_tables_vm_keys :
  Forall (fun id => is_Some (base_generalAliases !! ("vm/" +:+ ID_String id))
                    /\ is_Some (base_vmAliases !! ID_Key id))
         vm_ids.
Proof.
  unfold vm_ids, base_generalAliases, base_vmAliases.
  repeat apply Forall_cons_2; [..|apply Forall_nil_2]; split;
    rewrite !lookup_insert_is_Some'; auto 10.
Qed.

(** The entries of the hardcoded [vmAliases], and the [vm/] entries of the
    hardcoded [generalAliases], are those of the six virtual machines. *)
Lemma base_vmAliases_entries (k : Key32) (v : list string) :
  base_vmAliases !! k = Some v ->
  exists id alias,
    In (id, alias) vm_alias_names /\ k = ID_Key id /\ v = [alias].
Proof.
  unfold base_vmAliases, vm_alias_names.
  rewrite !lookup_insert_Some, lookup_empty. intros Hk.
  repeat match goal with
         | H : _ \/ _ |- _ => destruct H as [H|H]
         | H : _ /\ _ |- _ => destruct H as [? H]
         end; subst; try discriminate;
    eexists _, _; (split; [|split; reflexivity]); cbn; tauto.
Qed.

Lemma base_generalAliases_vm_entries (x : string) (v : list string) :
  base_generalAliases !! ("vm/" +:+ x) = Some v ->
  exists id alias,
    In (id, alias) vm_alias_names /\ x = ID_String id
    /\ v = ["vm/" +:+ alias].
Proof.
  unfold base_generalAliases, vm_alias_names.
  rewrite !lookup_insert_Some, lookup_empty. intros Hk.
  repeat match goal with
         | H : _ \/ _ |- _ => destruct H as [H|H]
         | H : _ /\ _ |- _ => destruct H as [? H]
         end; subst; try discriminate;
    try (exfalso; eapply vm_key_ne_bc_key; eassumption);
    match goal with
    | Heq : "vm/" +:+ _ = "vm/" +:+ _ |- _ => apply vm_key_inj in Heq; subst
    end;
    eexists _, _; (split; [|split; reflexivity]); cbn; tauto.
Qed.

(** C8. The loop over the chains removes no key, whatever the chains and
    the tables are, so that every key of the hardcoded tables is a key of
    the tables that [Aliases] returns; it writes under keys that start
    with [bc/] only, so that the result has the hardcoded [vm/] entries of
    [generalAliases] and the hardcoded [vmAliases]: an entry for each of
    the six virtual machines, every one an alias of the six (its own
    alias, the six identifiers being pairwise different). The genesis state that [Genesis] writes has no
    chain: with a codec that reads it back so, the result is the hardcoded
    tables themselves, with the aliases of the platform chain under the
    empty identifier, and any other call of [Aliases] returns the same
    three tables, whatever state it finds the codec in. *)
Theorem aliases_tables (networkID : uint32) general byKey byVM :
  @Aliases _ C networkID = Returns (general, byKey, byVM) ->
  (forall (chains : list CreateChainTx) g c,
     (forall k, is_Some (g !! k) ->
                is_Some ((alias_chains chains (g, c)).1 !! k))
     /\ (forall k, is_Some (c !! k) ->
                is_Some ((alias_chains chains (g, c)).2 !! k)))
  /\ (forall k, is_Some (base_generalAliases !! k) -> is_Some (general !! k))
  /\ (forall k, is_Some (base_chainAliases !! k) -> is_Some (byKey !! k))
  /\ byVM = base_vmAliases
  /\ (forall x, general !! ("vm/" +:+ x) = base_generalAliases !! ("vm/" +:+ x))
  /\ Forall (fun id => is_Some (general !! ("vm/" +:+ ID_String id))
                       /\ is_Some (byVM !! ID_Key id))
            vm_ids
  /\ (forall x v,
        general !! ("vm/" +:+ x) = Some v ->
        exists id alias,
          In (id, alias) vm_alias_names /\ x = ID_String id
          /\ v = ["vm/" +:+ alias])
  /\ (forall k v,
        byVM !! k = Some v ->
        exists id alias,
          In (id, alias) vm_alias_names /\ k = ID_Key id /\ v = [alias])
  /\ (NoDup (map ID_String vm_ids) -> NoDup (map ID_Key vm_ids) ->
      Forall (fun '(id, alias) =>
                general !! ("vm/" +:+ ID_String id) = Some ["vm/" +:+ alias]
                /\ byVM !! ID_Key id = Some [alias])
             vm_alias_names)
  /\ (@chainless_round_trip _ C ->
      general = base_generalAliases
      /\ byKey = base_chainAliases
      /\ general !! ("bc/" +:+ ID_String ids_Empty)
           = Some ["P"; "platform"; "bc/P"; "bc/platform"]
      /\ byKey !! ID_Key ids_Empty = Some ["P"; "platform"]
      /\ (forall r',
            @chainless_round_trip _ C' ->
            @Aliases _ C' networkID = Returns r' ->
            r' = (general, byKey, byVM))).
Proof.
  intros Hret.
  destruct (@Aliases_returns _ C _ _ _ _ Hret)
    as (genesisBytes & Hgen & Hloop & ->).
  pose proof (alias_chains_keeps_keys (Chains (@decoded_genesis _ C genesisBytes))
                base_generalAliases base_chainAliases) as [Hg Hk].
  rewrite Hloop in Hg, Hk. cbn [fst snd] in Hg, Hk.
  assert (Hvm : forall x,
             general !! ("vm/" +:+ x) = base_generalAliases !! ("vm/" +:+ x)).
  { intros x. change general with (general, byKey).1. rewrite <- Hloop.
    apply alias_chains_lookup_general.
    apply Forall_forall. intros chain _. apply vm_key_ne_bc_key. }
  split; [intros chains g c; apply alias_chains_keeps_keys|].
  split; [exact Hg|]. split; [exact Hk|]. split; [reflexivity|].
  split; [exact Hvm|].
  split.
  { eapply Forall_impl; [exact base_tables_vm_keys|].
    intros id [Hgid Hkid]. split; [now rewrite Hvm|exact Hkid]. }
  split.
  { intros x v. rewrite Hvm. apply base_generalAliases_vm_entries. }
  split; [exact base_vmAliases_entries|].
  split.
  { intros Hstr Hkey.
    eapply Forall_impl; [exact (base_tables_vm_entries Hstr Hkey)|].
    intros [id alias] [Hgen_entry Hvm_entry]. split; [|exact Hvm_entry].
    now rewrite Hvm. }
  intros Hcodec.
  pose proof (Aliases_chainless C networkID _ Hcodec Hret) as Hbase.
  injection Hbase as -> ->.
  destruct base_tables_platform_entries as [HP HPk].
  repeat split; try assumption.
  intros r' Hcodec' Hret'. exact (Aliases_chainless C' networkID r' Hcodec' Hret').
Qed.

End AliasTables.

(** The two codecs of the examples keep a state without chains so. *)
Lemma toy_codec_chainless :
  @GenesisPkg.chainless_round_trip GenesisPkg.toy_platform GenesisPkg.toy_codec.
Proof.
  intros g genesisBytes Hchains Hmarshal.
  cbn in Hmarshal. injection Hmarshal as <-. exact Hchains.
Qed.

Lemma toy_codec_framed_chainless :
  @GenesisPkg.chainless_round_trip GenesisPkg.toy_platform
    GenesisPkg.toy_codec_framed.
Proof.
  intros g genesisBytes Hchains Hmarshal.
  cbn in Hmarshal. injection Hmarshal as <-. exact Hchains.
Qed.

Lemma aliases_tables_witness :
  exists general byKey byVM,
    @GenesisPkg.Aliases GenesisPkg.toy_platform GenesisPkg.toy_codec 12345%N
      = GenesisPkg.Returns (general, byKey, byVM)
    /\ @GenesisPkg.Aliases GenesisPkg.toy_platform GenesisPkg.toy_codec_framed
         12345%N
       = GenesisPkg.Returns (general, byKey, byVM)
    /\ general !! "vm/2" = Some ["vm/avm"]
    /\ byVM !! 2%N = Some ["avm"]
    /\ general !! "bc/0" = Some ["P"; "platform"; "bc/P"; "bc/platform"]
    /\ byKey !! 0%N = Some ["P"; "platform"]
    /\ is_Some ((@GenesisPkg.alias_chains GenesisPkg.toy_platform
                   [Byte.x02; Byte.x03; Byte.x01] (general, byKey)).1 !! "bc/0")
    /\ is_Some ((@GenesisPkg.alias_chains GenesisPkg.toy_platform
                   [Byte.x02; Byte.x03; Byte.x01] (general, byKey)).2 !! 0%N).
Proof.
  destruct (@GenesisPkg.Aliases GenesisPkg.toy_platform GenesisPkg.toy_codec 12345%N)
    as [[[general byKey] byVM]|msg] eqn:HAliases;
    [|vm_compute in HAliases; discriminate HAliases].
  destruct (@GenesisPkg.Aliases GenesisPkg.toy_platform GenesisPkg.toy_codec_framed
              12345%N) as [r'|msg] eqn:HAliases';
    [|vm_compute in HAliases'; discriminate HAliases'].
  exists general, byKey, byVM. split; [reflexivity|].
  destruct (@aliases_tables GenesisPkg.toy_platform GenesisPkg.toy_codec
              GenesisPkg.toy_codec_framed 12345%N general byKey byVM HAliases)
    as (Hloop & _ & _ & _ & _ & _ & _ & _ & Hvm & Hcodec).
  destruct (Hcodec toy_codec_chainless) as (_ & _ & HP & HPk & Hsame).
  split; [f_equal; exact (Hsame r' toy_codec_framed_chainless HAliases')|].
  assert (Hentries : Forall (fun '(id, alias) =>
              general !! ("vm/" +:+ GenesisPkg.ID_String id) = Some ["vm/" +:+ alias]
              /\ byVM !! GenesisPkg.ID_Key id = Some [alias])
            GenesisPkg.vm_alias_names).
  { apply Hvm; vm_compute;
      repeat (apply NoDup_cons_2;
              [rewrite ?elem_of_cons, elem_of_nil; intuition discriminate|]);
      apply NoDup_nil_2. }
  apply Forall_cons_1 in Hentries as [_ Hentries].
  apply Forall_cons_1 in Hentries as [[Hg Hv] _].
  split; [exact Hg|]. split; [exact Hv|].
  split; [exact HP|]. split; [exact HPk|].
  destruct (Hloop [Byte.x02; Byte.x03; Byte.x01] general byKey) as [Hkeep Hkeep'].
  split; [apply Hkeep; eexists; exact HP|apply Hkeep'; eexists; exact HPk].
Defined.

(* ===================================================================== *)
(** * Properties of the vote tally *)
(* ===================================================================== *)

Section TallyProperties.

Import Tally.

Variables alpha beta : nat.

(** A decided container ignores every event. *)
Lemma run_decided (c : Container) (evs : list Event) :
  status c = Accepted \/ status c = Rejected ->
  run alpha beta c evs = c.
Proof.
  intros Hdecided. induction evs as [|ev evs IH]; [reflexivity|].
  unfold run in *. cbn [fold_left].
  assert (Hstep : step alpha beta c ev = c)
    by (unfold step; destruct Hdecided as [-> | ->]; reflexivity).
  now rewrite Hstep.
Qed.

Lemma tally_status (c : Container) (pref agree : nat) :
  status (tally alpha c pref agree) = status c.
Proof.
  unfold tally. destruct (alpha <=? agree)%nat; [|reflexivity].
  destruct (pref =? preference c)%nat; reflexivity.
Qed.

Lemma step_below_threshold (c : Container) (ev : Event) :
  0 < beta -> below_threshold beta c -> below_threshold beta (step alpha beta c ev).
Proof.
  intros Hbeta [HU HP]. unfold step.
  destruct (status c) eqn:Hst.
  - destruct ev; try (split; rewrite ?Hst; auto; discriminate).
    split; cbn; [discriminate|]. intros _. now rewrite HU.
  - destruct ev; try (split; cbn; rewrite ?Hst; auto; discriminate).
    cbv zeta.
    destruct (Nat.leb_spec beta (confidence (tally alpha c pref agree))) as [Hge|Hlt].
    + split; cbn; discriminate.
    + split; rewrite tally_status, Hst; [discriminate|auto].
  - split; rewrite Hst; discriminate.
  - split; rewrite Hst; discriminate.
Qed.

Lemma run_below_threshold (evs : list Event) :
  forall c : Container,
    0 < beta -> below_threshold beta c -> below_threshold beta (run alpha beta c evs).
Proof.
  unfold run. induction evs as [|ev evs IH]; intros c Hbeta Hc; [exact Hc|].
  cbn [fold_left]. apply IH; [exact Hbeta|].
  now apply step_below_threshold.
Qed.

(** A container that is being processed has not reached the threshold. *)
Lemma processing_below_threshold (evs : list Event) :
  0 < beta ->
  status (run alpha beta fresh evs) = Processing ->
  confidence (run alpha beta fresh evs) < beta.
Proof.
  intros Hbeta.
  apply (run_below_threshold evs fresh Hbeta).
  split; [reflexivity|discriminate].
Qed.

(** C10. A round that brings the confidence counter of a container to
    [beta] accepts it, so that no container is still being processed with
    its counter at the threshold; and an accepted container stays as it
    is, whatever happens next: it is never rejected nor processed again. *)
Theorem accepted_is_terminal :
  (forall (c : Container) (pref agree : nat),
     status c = Processing ->
     beta <= confidence (tally alpha c pref agree) ->
     status (step alpha beta c (Round pref agree)) = Accepted)
  /\ (forall evs : list Event,
        0 < beta ->
        status (run alpha beta fresh evs) = Processing ->
        confidence (run alpha beta fresh evs) < beta)
  /\ (forall (c : Container) (evs : list Event),
        status c = Accepted ->
        run alpha beta c evs = c
        /\ status (run alpha beta c evs) <> Rejected
        /\ status (run alpha beta c evs) <> Processing).
Proof.
  split.
  { intros c pref agree Hst Hreach. unfold step. rewrite Hst.
    apply Nat.leb_le in Hreach. cbv zeta. rewrite Hreach. reflexivity. }
  split; [intros evs; apply processing_below_threshold|].
  intros c evs Hacc.
  rewrite (run_decided c evs (or_introl Hacc)), Hacc.
  repeat split; discriminate.
Qed.

End TallyProperties.

(** The scenario of the specification: three peers, a quorum of two and a
    threshold of two; two rounds with two chits for the container accept
    it, and nothing that follows changes that. *)
Lemma accepted_is_terminal_witness :
  Tally.status (Tally.run 2 2 Tally.fresh
                  [Tally.Referenced; Tally.Round 0 2; Tally.Round 0 2])
    = Tally.Accepted
  /\ Tally.confidence (Tally.run 2 2 Tally.fresh
                         [Tally.Referenced; Tally.Round 0 2]) < 2
  /\ Tally.status
       (Tally.run 2 2
          (Tally.run 2 2 Tally.fresh
             [Tally.Referenced; Tally.Round 0 2; Tally.Round 0 2])
          [Tally.ConflictAccepted; Tally.Round 1 3; Tally.Referenced])
     <> Tally.Rejected.
Proof.
  destruct (accepted_is_terminal 2 2) as (Hreach & Hbelow & Hterminal).
  split; [|split].
  - apply (Hreach (Tally.run 2 2 Tally.fresh [Tally.Referenced; Tally.Round 0 2])
             0 2); [reflexivity|cbn; lia].
  - apply (Hbelow [Tally.Referenced; Tally.Round 0 2]); [lia|reflexivity].
  - apply Hterminal. reflexivity.
Defined.

(* ===================================================================== *)
(** * More on the test sender: outcomes of a call *)
(* ===================================================================== *)

Section SenderOutcomes.

Import Sender.

Context {ShortSet ShortID ID IDSet TestingT TestingB Act : Type}.

Local Abbreviation sender :=
  (ExternalSenderTest ShortSet ShortID ID IDSet TestingT TestingB Act).
Local Abbreviation arguments o := (args ShortSet ShortID ID IDSet (params o)).

Implicit Types (s : sender) (o : Op).

(** The three outcomes of a call, side by side. *)
Lemma invoke_cases s o (a : arguments o) :
  (exists f, handlerF s o = Some f
             /\ invoke s o a = [Run (call (params o) f a)])
  \/ (handlerF s o = None /\ cant s o = true
      /\ exists t, T s = Some t
         /\ invoke s o a = [TFatalf t ("Unexpectedly called " +:+ name o)])
  \/ (handlerF s o = None /\ cant s o = true /\ T s = None
      /\ exists b, B s = Some b
         /\ invoke s o a = [BFatalf b ("Unexpectedly called " +:+ name o)])
  \/ (handlerF s o = None
      /\ (cant s o = false \/ (T s = None /\ B s = None))
      /\ invoke s o a = []).
Proof.
  destruct (handlerF s o) as [f|] eqn:Hf.
  - left. exists f. split; [reflexivity|]. now apply invoke_handler.
  - right. rewrite (invoke_nil_handler s o a Hf).
    destruct (cant s o); [|right; right; auto].
    destruct (T s) as [t|]; [left; eauto 6|].
    destruct (B s) as [b|]; [right; left; eauto 8|].
    right; right; auto.
Qed.

(** X1. A call does at most one thing. It fails the test exactly when the
    handler is nil, the flag is set and a testing handle is attached; it
    does nothing exactly when the handler is nil and the flag is clear or
    no handle is attached; it runs a handler exactly when one is
    installed. *)
Theorem sender_call_outcome s o (a : arguments o) :
  length (invoke s o a) <= 1
  /\ (Exists (fun e => is_fatal e = true) (invoke s o a) <->
      handlerF s o = None /\ cant s o = true
      /\ (T s <> None \/ B s <> None))
  /\ (invoke s o a = [] <->
      handlerF s o = None
      /\ (cant s o = false \/ (T s = None /\ B s = None)))
  /\ (Exists (fun e => is_fatal e = false) (invoke s o a) <->
      handlerF s o <> None).
Proof.
  assert (Hone : forall (P : Event TestingT TestingB Act -> Prop) x,
             Exists P [x] <-> P x).
  { intros P x. rewrite Exists_cons, Exists_nil. tauto. }
  destruct (invoke_cases s o a)
    as [(f & Hf & ->)
       |[(Hf & Hc & t & HT & ->)
        |[(Hf & Hc & HT & b & HB & ->)
         |(Hf & Hc & ->)]]];
    rewrite ?Hone, ?Exists_nil, ?Hf, ?HT, ?HB; cbn [length is_fatal];
    (split; [lia|]).
  - repeat split; intros; try discriminate; try congruence;
      intuition discriminate.
  - rewrite Hc. repeat split; intros; try discriminate; try congruence;
      try (left; discriminate); intuition discriminate.
  - rewrite Hc. repeat split; intros; try discriminate; try congruence;
      try (right; discriminate); intuition discriminate.
  - repeat split; intros; try discriminate; try congruence; try tauto;
      destruct Hc as [Hc|[Hc1 Hc2]]; intuition congruence.
Qed.

(** X2. [Default] followed by a call: after [Default(cant)] a call fails the
    test exactly when [cant] is true, the operation has no handler and a
    testing handle is attached; after [Default(false)] no call ever
    fails. *)
Theorem sender_default_then_call s (c : bool) o (a : arguments o) :
  (Exists (fun e => is_fatal e = true) (invoke (Default s c) o a) <->
   c = true /\ handlerF s o = None /\ (T s <> None \/ B s <> None))
  /\ (c = false ->
      Forall (fun e => is_fatal e = false) (invoke (Default s c) o a)).
Proof.
  assert (Hone : forall (P : Event TestingT TestingB Act -> Prop) x,
             Exists P [x] <-> P x).
  { intros P x. rewrite Exists_cons, Exists_nil. tauto. }
  assert (Hc : cant (Default s c) o = c) by (destruct o; reflexivity).
  assert (Hf : handlerF (Default s c) o = handlerF s o)
    by (destruct o; reflexivity).
  assert (HT : T (Default s c) = T s) by reflexivity.
  assert (HB : B (Default s c) = B s) by reflexivity.
  destruct (invoke_cases (Default s c) o a)
    as [(f & Hf' & ->)
       |[(Hf' & Hc' & t & HT' & ->)
        |[(Hf' & Hc' & HT' & b & HB' & ->)
         |(Hf' & Hc' & ->)]]];
    rewrite ?Hone, ?Exists_nil, ?Forall_singleton; cbn [is_fatal];
    rewrite ?Hc, ?Hf, ?HT, ?HB in *.
  - split; [|reflexivity]. split; [discriminate|]. intros (_ & Hn & _). congruence.
  - split; [|congruence]. split; [|reflexivity].
    intros _. repeat split; try assumption. left. congruence.
  - split; [|congruence]. split; [|reflexivity].
    intros _. repeat split; try assumption. right. congruence.
  - split; [|intros _; apply Forall_nil_2].
    split; [tauto|]. intros (Hc1 & _ & Hh).
    destruct Hc' as [Hc'|[Hn1 Hn2]]; [congruence|].
    destruct Hh; contradiction.
Qed.

(** X3. The message of a failure names the operation that was called: two
    failing calls with the same message are calls of the same operation,
    whatever the senders and the arguments are. *)
Theorem sender_failure_names_operation s s' o o'
    (a : arguments o) (a' : arguments o') (e e' : Event TestingT TestingB Act) :
  In e (invoke s o a) ->
  In e' (invoke s' o' a') ->
  is_fatal e = true ->
  fatal_msg e = fatal_msg e' ->
  fatal_msg e = Some ("Unexpectedly called " +:+ name o) /\ o = o'.
Proof.
  intros He He' Hfat Hmsg.
  assert (Hname : forall s0 o0 (a0 : arguments o0) e0,
             In e0 (invoke s0 o0 a0) -> fatal_msg e0 <> None ->
             fatal_msg e0 = Some ("Unexpectedly called " +:+ name o0)).
  { intros s0 o0 a0 e0 Hin Hsome.
    destruct (invoke_cases s0 o0 a0)
      as [(f & _ & Heq)
         |[(_ & _ & t & _ & Heq)
          |[(_ & _ & _ & b & _ & Heq)
           |(_ & _ & Heq)]]];
      rewrite Heq in Hin; cbn in Hin;
      intuition (subst; cbn in *; congruence). }
  assert (Hsome : fatal_msg e <> None) by (destruct e; cbn in *; congruence).
  pose proof (Hname s o a e He Hsome) as Hm.
  split; [exact Hm|].
  rewrite Hmsg in Hsome. pose proof (Hname s' o' a' e' He' Hsome) as Hm'.
  rewrite Hmsg, Hm' in Hm.
  destruct o, o'; try reflexivity; vm_compute in Hm; discriminate Hm.
Qed.

End SenderOutcomes.

Lemma sender_call_outcome_witness :
  Exists (fun e => Sender.is_fatal e = true)
    (Sender.invoke Sender.tested_sender Sender.OpGet (7%N, (1%N, (3%N, (9%N, tt)))))
  /\ Sender.invoke Sender.bare_sender Sender.OpGet (7%N, (1%N, (3%N, (9%N, tt)))) = []
  /\ Exists (fun e => Sender.is_fatal e = false)
       (Sender.invoke Sender.put_sender Sender.OpPut
          (7%N, (1%N, (3%N, (9%N, ([], tt)))))).
Proof.
  destruct (sender_call_outcome Sender.tested_sender Sender.OpGet
              (7%N, (1%N, (3%N, (9%N, tt))))) as (_ & [_ Hfatal] & _ & _).
  destruct (sender_call_outcome Sender.bare_sender Sender.OpGet
              (7%N, (1%N, (3%N, (9%N, tt))))) as (_ & _ & [_ Hsilent] & _).
  destruct (sender_call_outcome Sender.put_sender Sender.OpPut
              (7%N, (1%N, (3%N, (9%N, ([], tt)))))) as (_ & _ & _ & [_ Hrun]).
  split; [|split].
  - apply Hfatal. split; [reflexivity|]. split; [reflexivity|]. left; discriminate.
  - apply Hsilent. split; [reflexivity|]. right. split; reflexivity.
  - apply Hrun. discriminate.
Defined.

Lemma sender_default_then_call_witness :
  Forall (fun e => Sender.is_fatal e = false)
    (Sender.invoke (Sender.Default Sender.tested_sender false) Sender.OpGet
       (7%N, (1%N, (3%N, (9%N, tt)))))
  /\ Exists (fun e => Sender.is_fatal e = true)
       (Sender.invoke (Sender.Default Sender.tested_sender_get_allowed true)
          Sender.OpGet (7%N, (1%N, (3%N, (9%N, tt))))).
Proof.
  split.
  - apply (proj2 (sender_default_then_call Sender.tested_sender false
                    Sender.OpGet (7%N, (1%N, (3%N, (9%N, tt)))))).
    reflexivity.
  - apply (proj1 (sender_default_then_call Sender.tested_sender_get_allowed true
                    Sender.OpGet (7%N, (1%N, (3%N, (9%N, tt)))))).
    split; [reflexivity|]. split; [reflexivity|]. left; discriminate.
Defined.

Lemma sender_failure_names_operation_witness :
  Sender.fatal_msg (Sender.TFatalf (TestingB := string) (Act := string * uint32)
                      "t" "Unexpectedly called Get")
    = Some "Unexpectedly called Get"
  /\ Sender.OpGet = Sender.OpGet.
Proof.
  apply (sender_failure_names_operation
           Sender.tested_sender Sender.tested_sender Sender.OpGet Sender.OpGet
           (7%N, (1%N, (3%N, (9%N, tt)))) (8%N, (2%N, (4%N, (5%N, tt))))
           (Sender.TFatalf "t" "Unexpectedly called Get")
           (Sender.TFatalf "t" "Unexpectedly called Get"));
    [left; reflexivity|left; reflexivity|reflexivity|reflexivity].
Defined.

(* ===================================================================== *)
(** * More on network naming: what [NetworkID] accepts *)
(* ===================================================================== *)

Section NetworkParsing.

Import GoLib GenesisPkg.

(** Naming then parsing, for use below. *)
Lemma NetworkID_of_NetworkName (networkID : uint32) :
  (networkID < 2 ^ 32)%N ->
  NetworkID (NetworkName networkID) = (networkID, None).
Proof.
  intros Hrange.
  destruct (decide (networkID = MainnetID)) as [->|H1]; [reflexivity|].
  destruct (decide (networkID = TestnetID)) as [->|H2]; [reflexivity|].
  destruct (decide (networkID = LocalID)) as [->|H3]; [reflexivity|].
  rewrite (NetworkName_unnamed networkID H1 H2 H3).
  apply NetworkID_unnamed, Hrange.
Qed.

Lemma NetworkNameToNetworkID_range (name : string) (id : N) :
  NetworkNameToNetworkID !! name = Some id -> (id < 2 ^ 32)%N.
Proof.
  unfold NetworkNameToNetworkID.
  rewrite !lookup_insert_Some, lookup_empty.
  intros H.
  repeat match goal with
         | H : _ \/ _ |- _ => destruct H as [H|H]
         | H : _ /\ _ |- _ => destruct H as [? H]
         end; subst; try discriminate; reflexivity.
Qed.

(** The identifier that [NetworkID] returns fits in 32 bits. *)
Lemma NetworkID_fits (networkName : string) :
  (fst (NetworkID networkName) < 2 ^ 32)%N.
Proof.
  unfold NetworkID.
  destruct (NetworkNameToNetworkID !! ToLower networkName) as [id|] eqn:Hlook.
  { cbn. eapply NetworkNameToNetworkID_range; eassumption. }
  cbv zeta.
  destruct (ParseUint (ToLower networkName)) as [id [e|]].
  - destruct (validNetworkName_MatchString (ToLower networkName));
      [|reflexivity].
    destruct (Atoi (slice_from 8 (ToLower networkName))) as [z [e'|]];
      [reflexivity|].
    destruct (z >? MaxUint32)%Z; cbn; [reflexivity|].
    pose proof (Z.mod_pos_bound z (2 ^ 32) ltac:(reflexivity)).
    change (2 ^ 32)%N with (Z.to_N (2 ^ 32)). lia.
  - destruct (Z.of_N id >? MaxUint32)%Z; cbn; [reflexivity|].
    apply N.mod_lt. discriminate.
Qed.

(** X4. Whatever the ASCII name, the identifier that [NetworkID] returns
    fits in 32 bits, and it is 0 whenever the error is not nil. *)
Theorem NetworkID_result_range (networkName : string) :
  string_forall is_ascii networkName = true ->
  (fst (NetworkID networkName) < 2 ^ 32)%N
  /\ (snd (NetworkID networkName) <> None -> fst (NetworkID networkName) = 0%N).
Proof.
  intros _.
  split; [apply NetworkID_fits|].
  unfold NetworkID.
  destruct (NetworkNameToNetworkID !! ToLower networkName) as [id|];
    [cbn; congruence|].
  cbv zeta.
  destruct (ParseUint (ToLower networkName)) as [id [e|]].
  - destruct (validNetworkName_MatchString (ToLower networkName));
      [|reflexivity].
    destruct (Atoi (slice_from 8 (ToLower networkName))) as [z [e'|]];
      [reflexivity|].
    destruct (z >? MaxUint32)%Z; cbn; [reflexivity|congruence].
  - destruct (Z.of_N id >? MaxUint32)%Z; cbn; [reflexivity|congruence].
Qed.

(** X5. Different networks have different names. *)
Theorem NetworkName_injective (a b : uint32) :
  (a < 2 ^ 32)%N -> (b < 2 ^ 32)%N ->
  NetworkName a = NetworkName b -> a = b.
Proof.
  intros Ha Hb Heq.
  pose proof (NetworkID_of_NetworkName a Ha) as Hra.
  pose proof (NetworkID_of_NetworkName b Hb) as Hrb.
  rewrite Heq in Hra. congruence.
Qed.

(** X6. [NetworkName] gives a canonical name: if [NetworkID] accepts an
    ASCII name and returns [id], it also accepts [NetworkName(id)] and
    returns [id] again. *)
Theorem NetworkName_canonical (networkName : string) (id : uint32) :
  string_forall is_ascii networkName = true ->
  NetworkID networkName = (id, None) ->
  NetworkID (NetworkName id) = (id, None).
Proof.
  intros _ Hid. apply NetworkID_of_NetworkName.
  pose proof (NetworkID_fits networkName) as Hrange.
  now rewrite Hid in Hrange.
Qed.

(** *** Decimal names and names of the form [network-<digits>] *)

Lemma ParseUint_Sprintf_d (u : N) :
  (u <= maxUint64)%N -> ParseUint (Sprintf_d u) = (u, None).
Proof.
  intros Hu. unfold ParseUint, Sprintf_d.
  destruct (fmt_decimal_head 19 u "") as (c & rest & Heq & Hc).
  pose proof (parse_digits_fmt_decimal 19 u "") as Hparse.
  rewrite Heq in *. apply Hparse; [|exact Hu].
  change (10 ^ N.of_nat 20)%N with 100000000000000000000%N.
  unfold maxUint64 in Hu. lia.
Qed.

Lemma Atoi_Sprintf_d_any (u : N) :
  (u <= maxUint64)%N ->
  Atoi (Sprintf_d u) =
    if (2 ^ 63 <=? u)%N then ((2 ^ 63 - 1)%Z, Some ErrRange)
    else (Z.of_N u, None).
Proof.
  intros Hu. pose proof (ParseUint_Sprintf_d u Hu) as Hparse.
  unfold Atoi, ParseInt.
  destruct (fmt_decimal_head 19 u "") as (c & rest & Heq & Hc).
  fold (Sprintf_d u) in Heq. rewrite Heq in *.
  destruct (is_digit_not_sign c Hc) as [-> ->].
  cbn [orb negb andb]. rewrite Hparse.
  destruct (2 ^ 63 <=? u)%N; reflexivity.
Qed.

Lemma Sprintf_d_digits (u : N) : string_forall is_digit (Sprintf_d u) = true.
Proof. apply fmt_decimal_digits. reflexivity. Qed.

(** A text of digits is none of the four names. *)
Lemma digits_unnamed (s : string) :
  string_forall is_digit s = true -> NetworkNameToNetworkID !! s = None.
Proof.
  intros Hs. unfold NetworkNameToNetworkID.
  rewrite !lookup_insert_ne, lookup_empty; [reflexivity|..];
    intros <-; discriminate Hs.
Qed.

(** X7. A decimal number is accepted as a name exactly when it fits in 32
    bits: [NetworkID] returns it without an error, and otherwise returns 0
    with the error that the number is out of range. *)
Theorem NetworkID_decimal (u : N) :
  (u < 2 ^ 64)%N ->
  NetworkID (Sprintf_d u) =
    if (u <? 2 ^ 32)%N then (u, None)
    else (0%N, Some ("NetworkID " +:+ Sprintf_d u +:+ " not in [0, 2^32)")).
Proof.
  intros Hu. change (2 ^ 64)%N with 18446744073709551616%N in Hu.
  unfold NetworkID. cbv zeta.
  rewrite (ToLower_digits _ (Sprintf_d_digits u)). unfold uint32.
  rewrite (digits_unnamed _ (Sprintf_d_digits u)).
  rewrite ParseUint_Sprintf_d by (unfold maxUint64; lia).
  cbv zeta. unfold MaxUint32. change (2 ^ 32)%N with 4294967296%N.
  destruct (N.ltb_spec u 4294967296) as [Hlt|Hge];
    destruct (Z.gtb_spec (Z.of_N u) 4294967295) as [Hgt|Hle]; try lia.
  - now rewrite N.mod_small by lia.
  - reflexivity.
Qed.

(** [NetworkID] on [network-<digits>], in terms of [Atoi]. *)
Lemma NetworkID_network_form (ds : string) :
  string_forall is_digit ds = true -> ds <> "" ->
  NetworkID ("network-" +:+ ds) =
    match Atoi ds with
    | (id, None) =>
        if (id >? MaxUint32)%Z
        then (0%N, Some ("NetworkID network-" +:+ ds +:+ " not in [0, 2^32)"))
        else (Z.to_N (id mod 2 ^ 32), None)
    | (_, Some _) =>
        (0%N, Some ("Failed to parse network-" +:+ ds +:+ " as a network name"))
    end.
Proof.
  intros Hdigits Hne. destruct ds as [|c rest]; [contradiction|].
  assert (Hc : is_digit c = true)
    by (cbn in Hdigits; now apply andb_prop in Hdigits as [? _]).
  unfold NetworkID.
  change (ToLower ("network-" +:+ String c rest))
    with ("network-" +:+ ToLower (String c rest)).
  rewrite (ToLower_digits _ Hdigits).
  unfold NetworkNameToNetworkID.
  rewrite !lookup_insert_ne by (cbn; discriminate).
  rewrite lookup_empty.
  change (ParseUint ("network-" +:+ String c rest)) with (0%N, Some ErrSyntax).
  cbv beta iota zeta.
  change (slice_from 8 ("network-" +:+ String c rest)) with (String c rest).
  assert (Hmatch : validNetworkName_MatchString ("network-" +:+ String c rest) = true).
  { cbv -[is_digit]. now rewrite Hc. }
  rewrite Hmatch. reflexivity.
Qed.

(** X8. A name [network-<n>] is accepted exactly when [n] fits in 32 bits.
    A larger [n] gives the identifier 0 and an error: out of range as long
    as [n] fits in an [int], a failure to parse beyond. *)
Theorem NetworkID_network_number (u : N) :
  (u < 2 ^ 64)%N ->
  NetworkID ("network-" +:+ Sprintf_d u) =
    if (u <? 2 ^ 32)%N then (u, None)
    else if (u <? 2 ^ 63)%N
    then (0%N, Some ("NetworkID network-" +:+ Sprintf_d u +:+ " not in [0, 2^32)"))
    else (0%N, Some ("Failed to parse network-" +:+ Sprintf_d u
                     +:+ " as a network name")).
Proof.
  intros Hu. change (2 ^ 64)%N with 18446744073709551616%N in Hu.
  rewrite NetworkID_network_form.
  2: apply Sprintf_d_digits.
  2: { destruct (fmt_decimal_head 19 u "") as (c & rest & Heq & _).
       unfold Sprintf_d. rewrite Heq. discriminate. }
  rewrite Atoi_Sprintf_d_any by (unfold maxUint64; lia).
  change (2 ^ 63)%N with 9223372036854775808%N.
  change (2 ^ 32)%N with 4294967296%N.
  destruct (N.leb_spec 9223372036854775808 u) as [Hbig|Hsmall];
    destruct (N.ltb_spec u 4294967296) as [Hlt|Hge];
    destruct (N.ltb_spec u 9223372036854775808) as [Hlt'|Hge']; try lia;
    try reflexivity; unfold MaxUint32;
    destruct (Z.gtb_spec (Z.of_N u) 4294967295) as [Hgt|Hle]; try lia;
    try reflexivity.
  change (2 ^ 32)%Z with 4294967296%Z.
  rewrite Z.mod_small by lia. now rewrite N2Z.id.
Qed.

(** *** Capitals *)

Lemma lower_idempotent (c : ascii) : lower (lower c) = lower c.
Proof.
  unfold lower at 2 3. destruct (is_upper c) eqn:Hup; [|unfold lower; now rewrite Hup].
  unfold is_upper in Hup. apply andb_prop in Hup as [Hlo Hhi].
  apply N.leb_le in Hlo, Hhi.
  unfold lower, is_upper.
  rewrite N_ascii_embedding by lia.
  destruct (N.leb_spec (N_of_ascii c + 32) 90) as [H|H]; [lia|].
  now rewrite andb_false_r.
Qed.

Lemma ToLower_idempotent (s : string) : ToLower (ToLower s) = ToLower s.
Proof.
  induction s as [|c s IH]; [reflexivity|].
  cbn [ToLower]. now rewrite lower_idempotent, IH.
Qed.

(** X9. Names are read without regard to capitals: on ASCII text,
    [NetworkID] gives the same result for a name and for its lower-case
    form, so every spelling of the name of a network parses to that
    network. *)
Theorem NetworkID_ignores_case (networkName : string) :
  string_forall is_ascii networkName = true ->
  NetworkID (ToLower networkName) = NetworkID networkName
  /\ (forall id : uint32,
        (id < 2 ^ 32)%N ->
        ToLower networkName = NetworkName id ->
        NetworkID networkName = (id, None)).
Proof.
  intros _.
  assert (Hlower : NetworkID (ToLower networkName) = NetworkID networkName)
    by (unfold NetworkID; now rewrite ToLower_idempotent).
  split; [exact Hlower|].
  intros id Hid Hname. rewrite <- Hlower, Hname.
  now apply NetworkID_of_NetworkName.
Qed.

(** *** The pattern is not anchored *)

(** A text with a byte that is no digit is no number for [ParseUint]. *)
Lemma parse_digits_nondigit (s : string) :
  forall n : N,
    string_forall is_digit s = false -> snd (parse_digits s n) <> None.
Proof.
  induction s as [|c s IH]; intros n Hs; [discriminate|].
  cbn [string_forall] in Hs. cbn [parse_digits].
  destruct (is_digit c); [|discriminate].
  cbn [andb] in Hs.
  destruct (_ <=? n)%N; [discriminate|].
  cbv zeta. destruct (_ || _); [discriminate|]. now apply IH.
Qed.

(** X10. The pattern [network-[0-9]+] is not anchored while the number is
    read from offset 8: a name made of one more leading byte, [network-]
    and a number [n] is accepted, its number is read as [-n], and the
    identifier returned is [2^32 - n]. *)
Theorem NetworkID_shifted_prefix (c : ascii) (u : N) :
  is_ascii c = true ->
  (0 < u < 2 ^ 32)%N ->
  NetworkID (String c ("network-" +:+ Sprintf_d u)) = ((2 ^ 32 - u)%N, None).
Proof.
  intros _ [Hpos Hu]. change (2 ^ 32)%N with 4294967296%N in *.
  destruct (fmt_decimal_head 19 u "") as (d & rest & Heq & Hd).
  fold (Sprintf_d u) in Heq.
  pose proof (ParseUint_Sprintf_d u ltac:(unfold maxUint64; lia)) as Hparse.
  pose proof (Sprintf_d_digits u) as Hdigits.
  unfold NetworkID.
  change (ToLower (String c ("network-" +:+ Sprintf_d u)))
    with (String (lower c) ("network-" +:+ ToLower (Sprintf_d u))).
  rewrite (ToLower_digits _ Hdigits). cbv zeta.
  generalize (lower c). clear c. intros c.
  unfold NetworkNameToNetworkID, uint32.
  rewrite !lookup_insert_ne by (intros Hk; inversion Hk).
  rewrite lookup_empty.
  assert (Hsyntax : snd (ParseUint (String c ("network-" +:+ Sprintf_d u))) <> None).
  { unfold ParseUint. apply parse_digits_nondigit.
    cbn [string_forall]. apply andb_false_intro2. reflexivity. }
  destruct (ParseUint (String c ("network-" +:+ Sprintf_d u))) as [v [e|]];
    [clear Hsyntax|now contradiction Hsyntax].
  assert (Hmatch :
            validNetworkName_MatchString (String c ("network-" +:+ Sprintf_d u)) = true).
  { change (validNetworkName_MatchString (String c ("network-" +:+ Sprintf_d u)))
      with (String.prefix "network-" (String c ("network-" +:+ Sprintf_d u))
            && match slice_from 8 (String c ("network-" +:+ Sprintf_d u)) with
               | String d' _ => is_digit d'
               | EmptyString => false
               end
            || validNetworkName_MatchString ("network-" +:+ Sprintf_d u)).
    apply orb_true_intro. right. rewrite Heq. cbv -[is_digit]. now rewrite Hd. }
  rewrite Hmatch.
  change (slice_from 8 (String c ("network-" +:+ Sprintf_d u)))
    with (String "-" (Sprintf_d u)).
  assert (HAtoi : Atoi (String "-" (Sprintf_d u)) = ((- Z.of_N u)%Z, None)).
  { unfold Atoi, ParseInt.
    change (Ascii.eqb "-" "-") with true. change (Ascii.eqb "-" "+") with false.
    cbn [orb negb andb]. rewrite Hparse.
    change (2 ^ 63)%N with 9223372036854775808%N.
    destruct (N.ltb_spec 9223372036854775808 u); [lia|reflexivity]. }
  rewrite HAtoi. unfold MaxUint32.
  destruct (Z.gtb_spec (- Z.of_N u) 4294967295) as [H|H]; [lia|].
  f_equal. change (2 ^ 32)%Z with 4294967296%Z.
  replace (- Z.of_N u)%Z with (4294967296 - Z.of_N u + (-1) * 4294967296)%Z by lia.
  rewrite Z.mod_add by discriminate.
  rewrite Z.mod_small by lia. lia.
Qed.

End NetworkParsing.

Lemma NetworkName_injective_witness :
  (5 < 2 ^ 32)%N /\ GenesisPkg.NetworkName 5%N = "network-5" /\ 5%N = 5%N.
Proof.
  split; [reflexivity|]. split; [reflexivity|].
  apply (NetworkName_injective 5%N 5%N); reflexivity.
Defined.

Lemma NetworkName_canonical_witness :
  GoLib.string_forall GoLib.is_ascii "TESTNET" = true
  /\ GenesisPkg.NetworkID "TESTNET" = (2%N, None)
  /\ GenesisPkg.NetworkName 2%N = "borealis"
  /\ GenesisPkg.NetworkID "borealis" = (2%N, None).
Proof.
  split; [reflexivity|]. split; [reflexivity|]. split; [reflexivity|].
  apply (NetworkName_canonical "TESTNET" 2%N); reflexivity.
Defined.

Lemma NetworkID_result_range_witness :
  GoLib.string_forall GoLib.is_ascii "devnet" = true
  /\ snd (GenesisPkg.NetworkID "devnet") <> None
  /\ fst (GenesisPkg.NetworkID "devnet") = 0%N.
Proof.
  split; [reflexivity|]. split; [discriminate|].
  apply (proj2 (NetworkID_result_range "devnet" eq_refl)). discriminate.
Defined.

Lemma NetworkID_decimal_witness :
  (4294967296 < 2 ^ 64)%N
  /\ GenesisPkg.NetworkID "4294967296"
     = (0%N, Some "NetworkID 4294967296 not in [0, 2^32)").
Proof.
  split; [reflexivity|].
  apply (NetworkID_decimal 4294967296%N). reflexivity.
Defined.

Lemma NetworkID_network_number_witness :
  (9223372036854775808 < 2 ^ 64)%N
  /\ GenesisPkg.NetworkID "network-9223372036854775808"
     = (0%N, Some "Failed to parse network-9223372036854775808 as a network name").
Proof.
  split; [reflexivity|].
  apply (NetworkID_network_number 9223372036854775808%N). reflexivity.
Defined.

Lemma NetworkID_ignores_case_witness :
  GoLib.string_forall GoLib.is_ascii "Network-12" = true
  /\ GoLib.ToLower "Network-12" = GenesisPkg.NetworkName 12%N
  /\ GenesisPkg.NetworkID "Network-12" = (12%N, None).
Proof.
  split; [reflexivity|]. split; [reflexivity|].
  apply (proj2 (NetworkID_ignores_case "Network-12" eq_refl) 12%N);
    reflexivity.
Defined.

Lemma NetworkID_shifted_prefix_witness :
  GoLib.is_ascii "x" = true
  /\ (0 < 1 < 2 ^ 32)%N
  /\ GenesisPkg.NetworkID "xnetwork-1" = (4294967295%N, None).
Proof.
  split; [reflexivity|]. split; [split; reflexivity|].
  apply (NetworkID_shifted_prefix "x" 1%N); [reflexivity|split; reflexivity].
Defined.

(* ===================================================================== *)
(** * More on the alias tables: what the loop over the chains writes *)
(* ===================================================================== *)

Section AliasLoop.

Import GoLib GenesisPkg.

Context `{Platform}.

Implicit Types (general : gmap string (list string)).
Implicit Types (byKey : gmap Key32 (list string)).
Implicit Types (chain : CreateChainTx) (chains : list CreateChainTx).

Local Abbreviation general_key chain :=
  ("bc/" +:+ ID_String (CreateChainTx_ID chain)).
Local Abbreviation chain_key chain := (ID_Key (CreateChainTx_ID chain)).

(** One round of the loop, by the aliases of the chain. *)
Lemma alias_chain_chain_aliases general byKey chain :
  alias_chain (general, byKey) chain =
    match chain_aliases chain with
    | Some (a, b) =>
        (<[general_key chain := a]> general, <[chain_key chain := b]> byKey)
    | None => (general, byKey)
    end.
Proof.
  unfold alias_chain, chain_aliases.
  repeat match goal with
         | |- context [if ?b then _ else _] => destruct b
         end; reflexivity.
Qed.

Lemma alias_chains_cons chain chains general byKey :
  alias_chains (chain :: chains) (general, byKey) =
    alias_chains chains (alias_chain (general, byKey) chain).
Proof. reflexivity. Qed.

Lemma alias_chains_app chains chains' general byKey :
  alias_chains (chains ++ chains') (general, byKey) =
    alias_chains chains' (alias_chains chains (general, byKey)).
Proof. apply fold_left_app. Qed.

(** Chains that get no alias, or another key, leave the entry alone. *)
Lemma alias_chains_skip_general chains :
  forall general byKey (k : string),
    Forall (fun chain => chain_aliases chain = None \/ general_key chain <> k)
           chains ->
    (alias_chains chains (general, byKey)).1 !! k = general !! k.
Proof.
  induction chains as [|chain chains IH]; intros general byKey k Hk;
    [reflexivity|].
  apply Forall_cons in Hk as [Hchain Hrest].
  rewrite alias_chains_cons, alias_chain_chain_aliases.
  destruct (chain_aliases chain) as [[a b]|]; [|now apply IH].
  rewrite IH by assumption.
  destruct Hchain as [Hnone|Hne]; [discriminate|]. now apply lookup_insert_ne.
Qed.

Lemma alias_chains_skip_byKey chains :
  forall general byKey (k : Key32),
    Forall (fun chain => chain_aliases chain = None \/ chain_key chain <> k)
           chains ->
    (alias_chains chains (general, byKey)).2 !! k = byKey !! k.
Proof.
  induction chains as [|chain chains IH]; intros general byKey k Hk;
    [reflexivity|].
  apply Forall_cons in Hk as [Hchain Hrest].
  rewrite alias_chains_cons, alias_chain_chain_aliases.
  destruct (chain_aliases chain) as [[a b]|]; [|now apply IH].
  rewrite IH by assumption.
  destruct Hchain as [Hnone|Hne]; [discriminate|]. now apply lookup_insert_ne.
Qed.

(** X11. After the loop a chain of one of the five virtual machines of the
    [switch] is found under its identifier in both tables, with the
    aliases of its virtual machine, unless a later chain with the same
    identifier got aliases of its own; and chains of no such virtual
    machine change nothing. *)
Theorem alias_chains_entry chains chain chains' general byKey a b :
  chain_aliases chain = Some (a, b) ->
  Forall (fun later =>
            chain_aliases later = None
            \/ (ID_String (CreateChainTx_ID later) <> ID_String (CreateChainTx_ID chain)
                /\ chain_key later <> chain_key chain))
         chains' ->
  (alias_chains (chains ++ chain :: chains') (general, byKey)).1
     !! general_key chain = Some a
  /\ (alias_chains (chains ++ chain :: chains') (general, byKey)).2
     !! chain_key chain = Some b
  /\ (forall others,
        Forall (fun other => chain_aliases other = None) others ->
        alias_chains others (general, byKey) = (general, byKey)).
Proof.
  intros Haliases Hlater.
  rewrite alias_chains_app.
  destruct (alias_chains chains (general, byKey)) as [general1 byKey1].
  rewrite alias_chains_cons, alias_chain_chain_aliases, Haliases.
  split; [|split].
  - rewrite alias_chains_skip_general; [apply lookup_insert_eq|].
    eapply Forall_impl; [exact Hlater|].
    intros later [Hnone|[Hs _]]; [now left|right].
    intros Heq. apply Hs. now inversion Heq.
  - rewrite alias_chains_skip_byKey; [apply lookup_insert_eq|].
    eapply Forall_impl; [exact Hlater|].
    intros later [Hnone|[_ Hk]]; [now left|now right].
  - clear. intros others. revert general byKey.
    induction others as [|other others IH]; intros general byKey Hnone;
      [reflexivity|].
    apply Forall_cons in Hnone as [Hother Hrest].
    rewrite alias_chains_cons, alias_chain_chain_aliases, Hother.
    now apply IH.
Qed.

(** X12. The loop adds nothing but the entries of the chains: a key is in a
    table after the loop exactly when it was there before or is the key
    of a chain that has aliases. *)
Theorem alias_chains_domain chains general byKey :
  (forall k : string,
     is_Some ((alias_chains chains (general, byKey)).1 !! k) <->
     is_Some (general !! k)
     \/ Exists (fun chain => is_Some (chain_aliases chain) /\ general_key chain = k)
               chains)
  /\ (forall k : Key32,
     is_Some ((alias_chains chains (general, byKey)).2 !! k) <->
     is_Some (byKey !! k)
     \/ Exists (fun chain => is_Some (chain_aliases chain) /\ chain_key chain = k)
               chains).
Proof.
  revert general byKey.
  induction chains as [|chain chains IH]; intros general byKey.
  - split; intros k; rewrite Exists_nil; cbn; tauto.
  - rewrite alias_chains_cons, alias_chain_chain_aliases.
    destruct (chain_aliases chain) as [[a b]|] eqn:Haliases.
    + destruct (IH (<[general_key chain := a]> general)
                   (<[chain_key chain := b]> byKey)) as [IHg IHk].
      split; intros k; rewrite ?IHg, ?IHk, Exists_cons, lookup_insert_is_Some.
      * destruct (decide (general_key chain = k)); intuition eauto.
      * destruct (decide (chain_key chain = k)); intuition eauto.
    + destruct (IH general byKey) as [IHg IHk].
      pose proof (@is_Some_None (list string * list string)) as Hnone.
      split; intros k; rewrite ?IHg, ?IHk, Exists_cons, Haliases; tauto.
Qed.

End AliasLoop.

Lemma alias_chains_entry_witness :
  let tables :=
    @GenesisPkg.alias_chains GenesisPkg.toy_platform
      ([Byte.x03] ++ Byte.x02 :: [Byte.x01; Byte.x05])
      (@GenesisPkg.base_generalAliases GenesisPkg.toy_platform,
       @GenesisPkg.base_chainAliases GenesisPkg.toy_platform) in
  tables.1 !! "bc/102" = Some ["X"; "avm"; "bc/X"; "bc/avm"]
  /\ tables.2 !! 102%N = Some ["X"; "avm"].
Proof.
  cbv zeta.
  destruct (@alias_chains_entry GenesisPkg.toy_platform
              [Byte.x03] Byte.x02 [Byte.x01; Byte.x05]
              (@GenesisPkg.base_generalAliases GenesisPkg.toy_platform)
              (@GenesisPkg.base_chainAliases GenesisPkg.toy_platform)
              ["X"; "avm"; "bc/X"; "bc/avm"] ["X"; "avm"])
    as (Hg & Hk & _).
  - reflexivity.
  - repeat apply Forall_cons_2; [left; reflexivity| |apply Forall_nil_2].
    right. split; vm_compute; discriminate.
  - split; [exact Hg|exact Hk].
Defined.

Lemma alias_chains_domain_witness :
  is_Some ((@GenesisPkg.alias_chains GenesisPkg.toy_platform [Byte.x02; Byte.x01]
              (∅, ∅)).1 !! "bc/102")
  /\ ~ is_Some ((@GenesisPkg.alias_chains GenesisPkg.toy_platform [Byte.x02; Byte.x01]
              (∅, ∅)).2 !! 101%N).
Proof.
  destruct (@alias_chains_domain GenesisPkg.toy_platform [Byte.x02; Byte.x01] ∅ ∅)
    as [Hg Hk].
  split.
  - apply Hg. right. apply Exists_cons_hd. split; [eexists|]; reflexivity.
  - intros Hsome. apply Hk in Hsome as [Hempty|Hex].
    + rewrite lookup_empty in Hempty. now apply is_Some_None in Hempty.
    + apply Exists_cons in Hex as [[_ Heq]|Hex]; [discriminate Heq|].
      apply Exists_cons in Hex as [[Hal _]|Hex]; [|now apply Exists_nil in Hex].
      vm_compute in Hal. now apply is_Some_None in Hal.
Defined.

(* ===================================================================== *)
(** * More on [VMGenesis] and [init] *)
(* ===================================================================== *)

Section GenesisSearch.

Import GoLib GenesisPkg.

Context `{Platform} `{!Codec}.

(** The first element that satisfies a test. *)
Lemma find_first {A : Type} (f : A -> bool) (l : list A) (x : A) :
  List.find f l = Some x <->
  exists l1 l2, l = (l1 ++ x :: l2)%list /\ f x = true
                /\ Forall (fun y => f y = false) l1.
Proof.
  induction l as [|y l IH]; cbn [List.find].
  - split; [discriminate|]. intros (l1 & l2 & Hl & _). now destruct l1.
  - destruct (f y) eqn:Hy.
    + split.
      * intros [= <-]. exists [], l. repeat split; [exact Hy|constructor].
      * intros (l1 & l2 & Hl & Hx & Hl1). destruct l1 as [|z l1].
        -- now injection Hl as -> _.
        -- injection Hl as -> _. apply Forall_cons in Hl1 as [Hz _]. congruence.
    + rewrite IH. split.
      * intros (l1 & l2 & -> & Hx & Hl1). exists (y :: l1), l2.
        repeat split; [exact Hx|]. now constructor.
      * intros (l1 & l2 & Hl & Hx & Hl1). destruct l1 as [|z l1].
        -- injection Hl as -> _. congruence.
        -- injection Hl as -> ->. apply Forall_cons in Hl1 as [_ Hl1]. eauto.
Qed.

(** X13. [VMGenesis] returns the first chain of the decoded genesis state
    whose virtual machine is [vmID], and nil exactly when the genesis
    state has no such chain. *)
Theorem VMGenesis_first_match (networkID : uint32) (vmID : ID)
    (genesisBytes : list Byte.byte) :
  Genesis networkID = Returns genesisBytes ->
  let chains := Chains (fst (Codec_Unmarshal genesisBytes platformvm_Genesis_zero)) in
  (forall chain,
     VMGenesis networkID vmID = Returns (Some chain) <->
     exists before after,
       chains = (before ++ chain :: after)%list
       /\ ID_Equals (VMID chain) vmID = true
       /\ Forall (fun other => ID_Equals (VMID other) vmID = false) before)
  /\ (VMGenesis networkID vmID = Returns None <->
      Forall (fun other => ID_Equals (VMID other) vmID = false) chains).
Proof.
  intros Hgen chains. unfold VMGenesis. rewrite Hgen. cbn [bind]. fold chains.
  split.
  - intros chain.
    pose proof (find_first (fun c => ID_Equals (VMID c) vmID) chains chain) as Hfirst.
    cbv beta in Hfirst. rewrite <- Hfirst. split; congruence.
  - split.
    + intros [= Hfind]. apply Forall_forall. intros other Hin.
      apply list_elem_of_In in Hin.
      exact (List.find_none _ _ Hfind other Hin).
    + intros Hall. f_equal.
      destruct (List.find _ chains) as [chain|] eqn:Hfind; [|reflexivity].
      apply List.find_some in Hfind as [Hin Heq].
      rewrite Forall_forall in Hall.
      apply list_elem_of_In in Hin. specialize (Hall chain Hin). congruence.
Qed.

End GenesisSearch.

Section Init.

Import GoLib GenesisPkg.

Context {ShortID : Type}.
Variable ShortFromString : string -> ShortID * option string.

(** A string parses to an identifier, without an error. *)
Local Abbreviation parses str id := (ShortFromString str = (id, None)).

Lemma parse_short_ids_returns (strs : list string) :
  forall parsed result,
    parse_short_ids ShortFromString strs parsed = Returns result <->
    exists ids, Forall2 (fun str id => parses str id) strs ids
                /\ result = (parsed ++ ids)%list.
Proof.
  induction strs as [|str strs IH]; intros parsed result; cbn [parse_short_ids].
  - split.
    + intros [= <-]. exists []. split; [constructor|now rewrite app_nil_r].
    + intros (ids & Hids & ->). apply Forall2_nil_inv_l in Hids as ->.
      now rewrite app_nil_r.
  - destruct (ShortFromString str) as [id [err|]] eqn:Hstr.
    + split; [discriminate|].
      intros (ids & Hids & _). apply Forall2_cons_inv_l in Hids
        as (id' & ids' & Hid' & _ & _). congruence.
    + rewrite IH. split.
      * intros (ids & Hids & ->). exists (id :: ids).
        split; [now constructor|]. now rewrite <- app_assoc.
      * intros (ids & Hids & ->). apply Forall2_cons_inv_l in Hids
          as (id' & ids' & Hid' & Hids' & ->).
        assert (id' = id) as -> by congruence.
        exists ids'. split; [exact Hids'|]. now rewrite <- app_assoc.
Qed.

Lemma parse_short_ids_panics (strs : list string) :
  forall parsed msg,
    parse_short_ids ShortFromString strs parsed = Panics msg <->
    exists before str after ids id,
      strs = (before ++ str :: after)%list
      /\ Forall2 (fun str id => parses str id) before ids
      /\ ShortFromString str = (id, Some msg).
Proof.
  induction strs as [|str strs IH]; intros parsed msg; cbn [parse_short_ids].
  - split; [discriminate|]. intros (before & ? & ? & ? & ? & Hl & _).
    now destruct before.
  - destruct (ShortFromString str) as [id [err|]] eqn:Hstr.
    + split.
      * intros [= <-]. exists [], str, strs, [], id.
        repeat split; [constructor|exact Hstr].
      * intros (before & str' & after & ids & id' & Hl & Hbefore & Hfail).
        destruct before as [|str0 before].
        -- injection Hl as <- _. congruence.
        -- injection Hl as <- _.
           apply Forall2_cons_inv_l in Hbefore as (? & ? & Hok & _ & _).
           congruence.
    + rewrite IH. split.
      * intros (before & str' & after & ids & id' & -> & Hbefore & Hfail).
        exists (str :: before), str', after, (id :: ids), id'.
        repeat split; [now constructor|exact Hfail].
      * intros (before & str' & after & ids & id' & Hl & Hbefore & Hfail).
        destruct before as [|str0 before].
        -- injection Hl as <- _. congruence.
        -- injection Hl as <- ->.
           apply Forall2_cons_inv_l in Hbefore as (? & ids' & _ & Hbefore & _).
           eauto 10.
Qed.

(** X14. [init] returns exactly when [ids.ShortFromString] accepts every
    hardcoded address and staker identifier; [ParsedAddresses] and
    [ParsedStakerIDs] then hold the parsed identifiers, one for each
    string and in the order of the strings. Otherwise it panics with the
    error of the first string that is rejected, addresses first. *)
Theorem init_parses_all :
  (forall ParsedAddresses ParsedStakerIDs,
     init ShortFromString = Returns (ParsedAddresses, ParsedStakerIDs) <->
     Forall2 (fun str id => parses str id) Addresses ParsedAddresses
     /\ Forall2 (fun str id => parses str id) StakerIDs ParsedStakerIDs)
  /\ (forall msg,
        init ShortFromString = Panics msg <->
        exists before str after ids id,
          (Addresses ++ StakerIDs)%list = (before ++ str :: after)%list
          /\ Forall2 (fun str id => parses str id) before ids
          /\ ShortFromString str = (id, Some msg)).
Proof.
  unfold init. split.
  - intros pa ps. split.
    + destruct (parse_short_ids ShortFromString Addresses []) as [pa'|] eqn:Ha;
        cbn [bind]; [|discriminate].
      destruct (parse_short_ids ShortFromString StakerIDs []) as [ps'|] eqn:Hs;
        cbn [bind]; [|discriminate].
      intros [= <- <-].
      apply parse_short_ids_returns in Ha as (ids & Hids & ->).
      apply parse_short_ids_returns in Hs as (ids' & Hids' & ->).
      now split.
    + intros [Ha Hs].
      assert (Ha' : parse_short_ids ShortFromString Addresses [] = Returns pa)
        by (apply parse_short_ids_returns; eauto).
      assert (Hs' : parse_short_ids ShortFromString StakerIDs [] = Returns ps)
        by (apply parse_short_ids_returns; eauto).
      now rewrite Ha', Hs'.
  - intros msg.
    rewrite <- (parse_short_ids_panics (Addresses ++ StakerIDs)%list [] msg).
    assert (Happ : forall l1 l2 parsed,
               parse_short_ids ShortFromString (l1 ++ l2)%list parsed =
                 bind (parse_short_ids ShortFromString l1 parsed)
                      (parse_short_ids ShortFromString l2)).
    { induction l1 as [|str l1 IHl]; intros l2 parsed; [reflexivity|].
      cbn [app parse_short_ids].
      destruct (ShortFromString str) as [id [err|]]; [reflexivity|apply IHl]. }
    rewrite Happ.
    assert (Hindep : forall l parsed parsed' m,
               parse_short_ids ShortFromString l parsed = Panics m <->
               parse_short_ids ShortFromString l parsed' = Panics m).
    { intros l parsed parsed' m. now rewrite !parse_short_ids_panics. }
    destruct (parse_short_ids ShortFromString Addresses []) as [pa|err] eqn:Ha;
      cbn [bind]; [|split; intros [= ->]; reflexivity].
    destruct (parse_short_ids ShortFromString StakerIDs []) as [ps|err] eqn:Hs;
      cbn [bind].
    + split; [discriminate|]. intros Hp. apply (Hindep _ _ []) in Hp. congruence.
    + split.
      * intros [= <-]. apply (Hindep _ []). exact Hs.
      * intros Hp. apply (Hindep _ _ []) in Hp. congruence.
Qed.

End Init.

Lemma VMGenesis_first_match_witness :
  @GenesisPkg.Genesis GenesisPkg.toy_platform GenesisPkg.toy_codec 12345%N
    = GenesisPkg.Returns []
  /\ @GenesisPkg.VMGenesis GenesisPkg.toy_platform GenesisPkg.toy_codec
       12345%N 2%N = GenesisPkg.Returns None.
Proof.
  split; [reflexivity|].
  apply (proj2 (@VMGenesis_first_match GenesisPkg.toy_platform GenesisPkg.toy_codec
                  12345%N 2%N [] eq_refl)).
  apply Forall_nil_2.
Defined.

Lemma init_parses_all_witness :
  GenesisPkg.init GenesisPkg.toy_ShortFromString
    = GenesisPkg.Returns ([54%N], [55%N; 77%N; 78%N; 71%N; 80%N]).
Proof.
  apply (proj1 (init_parses_all GenesisPkg.toy_ShortFromString)).
  split; repeat constructor.
Defined.
